(** * flow-launcher-multi-translate: the query handler of [src/index.ts]

    A shallow embedding of the prompt parser ([parsePrompt]) and of the
    [query] handler registered in [main], with the properties of the
    prompt grammar, the quick-select menu, the precondition notices and
    the per-service translation fan-out.

    JavaScript strings are sequences of UTF-16 code units; they are
    modelled as [list N], one number per code unit, so that [indexOf],
    [substring], [trim], [split] and the regular expressions of the source
    see exactly what the engine sees (the regular expressions carry no
    [u] flag, so they too work on code units). *)

From Stdlib Require Import String Ascii List Bool ZArith NArith Lia.
Import ListNotations.

Set Implicit Arguments.

(** ** JavaScript string primitives used by the source *)

Module JS.

Definition jsstring := list N.

(** An ASCII literal, one code unit per character. *)
Definition lit (s : string) : jsstring :=
  map N_of_ascii (list_ascii_of_string s).

Fixpoint eqb (a b : jsstring) : bool :=
  match a, b with
  | [], [] => true
  | x :: a', y :: b' => N.eqb x y && eqb a' b'
  | _, _ => false
  end.

(** [s.indexOf(c)] for a one-code-unit needle: the index of the first
    occurrence, or [-1]. *)
Fixpoint indexOf (c : N) (s : jsstring) : Z :=
  match s with
  | [] => (-1)%Z
  | x :: r =>
      if N.eqb x c then 0%Z
      else let i := indexOf c r in
           if (i =? -1)%Z then (-1)%Z else (i + 1)%Z
  end.

(** [s.search(re)] for a one-character class [re]: the index of the first
    code unit in the class, or [-1]. *)
Fixpoint search (p : N -> bool) (s : jsstring) : Z :=
  match s with
  | [] => (-1)%Z
  | x :: r =>
      if p x then 0%Z
      else let i := search p r in
           if (i =? -1)%Z then (-1)%Z else (i + 1)%Z
  end.

(** [s.substring(a, b)] and [s.substring(a)]; negative indices count as 0
    and indices past the end as the length ([Z.to_nat], [firstn] and
    [skipn] clamp the same way for [a <= b], the only use in the source). *)
Definition substring (a b : Z) (s : jsstring) : jsstring :=
  firstn (Z.to_nat b - Z.to_nat a) (skipn (Z.to_nat a) s).

Definition substringFrom (a : Z) (s : jsstring) : jsstring :=
  skipn (Z.to_nat a) s.

(** ECMAScript WhiteSpace and LineTerminator code points, the characters
    [String.prototype.trim] strips. *)
Definition isWhiteSpace (c : N) : bool :=
  ((9 <=? c) && (c <=? 13)
   || (c =? 32) || (c =? 160) || (c =? 5760)
   || ((8192 <=? c) && (c <=? 8202))
   || (c =? 8232) || (c =? 8233) || (c =? 8239) || (c =? 8287)
   || (c =? 12288) || (c =? 65279))%N.

Fixpoint trimStart (s : jsstring) : jsstring :=
  match s with
  | [] => []
  | c :: r => if isWhiteSpace c then trimStart r else s
  end.

Definition trimEnd (s : jsstring) : jsstring := rev (trimStart (rev s)).

Definition trim (s : jsstring) : jsstring := trimEnd (trimStart s).

(** [s.split(sep)] for a one-code-unit separator; never empty. *)
Fixpoint split (sep : N) (s : jsstring) : list jsstring :=
  match s with
  | [] => [[]]
  | c :: r =>
      if N.eqb c sep then [] :: split sep r
      else match split sep r with
           | h :: t => (c :: h) :: t
           | [] => [[c]]
           end
  end.

(** [arr.includes(x)] on an array of strings; [x] may be [undefined]
    ([None]), which no string equals. *)
Definition includes (arr : list jsstring) (x : option jsstring) : bool :=
  match x with
  | Some v => existsb (eqb v) arr
  | None => false
  end.

(** A template-literal hole [${v}] where [v] may be [undefined]. *)
Definition tpl (v : option jsstring) : jsstring :=
  match v with
  | Some s => s
  | None => lit "undefined"
  end.

(** [v || d] on strings that may be [undefined]: [undefined] and the
    empty string are falsy. *)
Definition orElse (v d : option jsstring) : option jsstring :=
  match v with
  | Some (c :: s) => Some (c :: s)
  | _ => d
  end.

End JS.

Import JS.

Definition SPACE : N := 32.
Definition GT : N := 62.

(** ** The prefix grammar of [parsePrompt] *)

(** The character class [[a-z_]]. *)
Definition isCodeChar (c : N) : bool :=
  ((97 <=? c) && (c <=? 122) || (c =? 95))%N.

(** The longest prefix of [s] in the class, and what follows it.  Every
    [[a-z_]+] of the three expressions is followed by [>] or by the end of
    the input, neither of which is in the class, so the greedy run is the
    only way the group can match. *)
Fixpoint span (p : N -> bool) (s : jsstring) : jsstring * jsstring :=
  match s with
  | [] => ([], [])
  | c :: r =>
      if p c then let (a, b) := span p r in (c :: a, b)
      else ([], s)
  end.

(** [prefix.match(/^([a-z_]+)>([a-z_]+)$/)]: the two groups. *)
Definition match1 (prefix : jsstring) : option (jsstring * jsstring) :=
  match span isCodeChar prefix with
  | (c :: a, g :: r) =>
      if N.eqb g GT then
        match span isCodeChar r with
        | (d :: b, []) => Some (c :: a, d :: b)
        | _ => None
        end
      else None
  | _ => None
  end.

(** [prefix.match(/^([a-z_]+)>$/)]: the group. *)
Definition match2 (prefix : jsstring) : option jsstring :=
  match span isCodeChar prefix with
  | (c :: a, [g]) => if N.eqb g GT then Some (c :: a) else None
  | _ => None
  end.

(** [prefix.match(/^>?([a-z_]+)$/)]: the group. *)
Definition match3 (prefix : jsstring) : option jsstring :=
  let body := match prefix with
              | g :: r => if N.eqb g GT then r else prefix
              | [] => prefix
              end in
  match span isCodeChar body with
  | (c :: a, []) => Some (c :: a)
  | _ => None
  end.

Module Prompt.
Record t := mk
  { sourceLanguageCode : jsstring;
    targetLanguageCode : jsstring;
    text : jsstring }.
End Prompt.

Section Parser.

(** [languageCodesArr] of [./service/language], the valid codes. *)
Variable languageCodesArr : list jsstring.

Definition parsePrompt (prompt oldSourceLanguageCode oldTargetLanguageCode : jsstring)
  : Prompt.t :=
  (* Check if there is prefix *)
  let spaceIndex := indexOf SPACE prompt in
  (* prefix too long seems like a text *)
  if (15 <? spaceIndex)%Z then
    Prompt.mk oldSourceLanguageCode oldTargetLanguageCode prompt
  else
    let '(prefix, rest) :=
      if (spaceIndex =? -1)%Z then (prompt, [])
      else (substring 0 spaceIndex prompt,
            trim (substringFrom (spaceIndex + 1) prompt)) in
    (* Part 1: A>B; [None] is falling out of the [if] *)
    let part1 :=
      match match1 prefix with
      | Some (source, target) =>
          if includes languageCodesArr (Some source)
             && includes languageCodesArr (Some target)
          then Some (Prompt.mk source target rest)
          else None
      | None => None
      end in
    (* Part 2: A> *)
    let part2 :=
      match match2 prefix with
      | Some source =>
          if includes languageCodesArr (Some source)
          then Some (Prompt.mk source oldTargetLanguageCode rest)
          else None
      | None => None
      end in
    (* Part 3: B or >B *)
    let part3 :=
      match match3 prefix with
      | Some target =>
          if includes languageCodesArr (Some target)
          then Some (Prompt.mk oldSourceLanguageCode target rest)
          else None
      | None => None
      end in
    match part1 with
    | Some r => r
    | None =>
        match part2 with
        | Some r => r
        | None =>
            match part3 with
            | Some r => r
            | None =>
                (* Default case *)
                Prompt.mk oldSourceLanguageCode oldTargetLanguageCode prompt
            end
        end
    end.

End Parser.

(** ** Localised messages and result items *)

(** [settings.interfaceLanguage]: the three keys of every [messagesMap]
    entry. *)
Inductive InterfaceLanguage := en | tr | zh.

(** An entry [{ en, tr, zh }] of [messagesMap], indexed by the interface
    language. *)
Definition message (e t z : jsstring) (l : InterfaceLanguage) : jsstring :=
  match l with en => e | tr => t | zh => z end.

Module messagesMap.

(** The entries of the source, the Turkish and Chinese strings spelt in
    code units; the three subtitles hold the same texts. *)

(* tr: Lütfen yapılandırmanızı kontrol edin.   zh: 请检查您的配置。 *)
Definition checkConfiguration : InterfaceLanguage -> jsstring :=
  message (lit "Please check your configuration.")
          (lit "L" ++ [252] ++ lit "tfen yap" ++ [305] ++ lit "land" ++ [305]
           ++ lit "rman" ++ [305] ++ lit "z" ++ [305] ++ lit " kontrol edin.")%N
          [35831; 26816; 26597; 24744; 30340; 37197; 32622; 12290]%N.

(* zh: 不支持的源语言 *)
Definition unsupportedSourceLanguage :=
  message (lit "Unsupported source language")
          (lit "Desteklenmeyen kaynak dil")
          [19981; 25903; 25345; 30340; 28304; 35821; 35328]%N.
Definition unsupportedSourceLanguageSubtitle := checkConfiguration.

(* zh: 不支持的目标语言 *)
Definition unsupportedTargetLanguage :=
  message (lit "Unsupported target language")
          (lit "Desteklenmeyen hedef dil")
          [19981; 25903; 25345; 30340; 30446; 26631; 35821; 35328]%N.
Definition unsupportedTargetLanguageSubtitle := checkConfiguration.

(* tr: Yapılandırılmış hizmet yok   zh: 未配置翻译服务 *)
Definition noServicesConfigured :=
  message (lit "No services configured")
          (lit "Yap" ++ [305] ++ lit "land" ++ [305] ++ lit "r" ++ [305]
           ++ lit "lm" ++ [305; 351] ++ lit " hizmet yok")%N
          [26410; 37197; 32622; 32763; 35793; 26381; 21153]%N.
Definition noServicesConfiguredSubtitle := checkConfiguration.

(* tr: Varsayılan seçili:   zh: 默认选择: *)
Definition defaultSelected :=
  message (lit "Default selected: ")
          (lit "Varsay" ++ [305] ++ lit "lan se" ++ [231] ++ lit "ili: ")%N
          ([40664; 35748; 36873; 25321] ++ lit ": ")%N.

(* tr: Hızlı seçim:   zh: 快速选择: *)
Definition quickSelect :=
  message (lit "Quick select: ")
          (lit "H" ++ [305] ++ lit "zl" ++ [305] ++ lit " se" ++ [231]
           ++ lit "im: ")%N
          ([24555; 36895; 36873; 25321] ++ lit ": ")%N.

End messagesMap.

(** The separator of the pair titles: a space, U+2192, a space. *)
Definition arrow : jsstring := (lit " " ++ [8594] ++ lit " ")%N.

(** [Flow.Actions.changeQuery(query, { requery })] and
    [Flow.Actions.custom(method, parameters)]. *)
Inductive Action :=
| changeQuery (query : jsstring) (requery : bool)
| custom (method : jsstring) (parameters : list jsstring).

Record ResultItem := mkItem
  { title : jsstring;
    subtitle : jsstring;
    icoPath : jsstring;
    jsonRPCAction : option Action }.

(** The result of [parseSettings].  [services] and [languagePairs] are
    tested for truthiness by the handler, so they may be absent. *)
Record Settings := mkSettings
  { interfaceLanguage : InterfaceLanguage;
    sourceLanguageCode : jsstring;
    targetLanguageCode : jsstring;
    triggerKeyword : jsstring;
    services : option (list jsstring);
    languagePairs : option (list jsstring);
    translateDelay : N }.

(** How a promise settles. *)
Inductive Settled (A : Type) :=
| fulfilled (v : A)
| rejected.
Arguments rejected {A}.

(** Display names per interface language; a name may be missing. *)
Definition Names := InterfaceLanguage -> option jsstring.

(** [/[\u4E00-\u9FA5]/.test(text)]: some code unit of [text] lies in
    U+4E00..U+9FA5, that is in 19968..40869. *)
Definition regExp_test (text : jsstring) : bool :=
  existsb (fun c => (19968 <=? c) && (c <=? 40869))%N text.

Definition AUTO : jsstring := lit "auto".

Section Handler.

(** The HTTP client of [./axios]; only passed on to the services. *)
Variable AxiosInstance : Type.
Variable createAxiosInstance : Settings -> AxiosInstance.

(** An entry of [services] in [./service/index]: the supported codes with
    the service's own code for each, and the translate capability.  A
    service code looked up for an unsupported language is [undefined]
    ([None]) and is passed to [translate] as such. *)
Record Service := mkService
  { languagesMap : jsstring -> option jsstring;
    translate : jsstring -> option jsstring -> option jsstring ->
                AxiosInstance -> Settings -> Settled jsstring }.

(** The tables of [./service/language], [./service/index] and [./service],
    and the assets directory. *)
Variable languageCodesArr : list jsstring.
Variable languageNamesMap : jsstring -> option Names.
Variable servicesData : jsstring -> option Service.
Variable serviceNamesMap : jsstring -> option Names.
Variable assetsPath : jsstring.

(** One invocation of a service's [translate], with the arguments the
    dispatcher passed. *)
Record Call := mkCall
  { callee : jsstring;
    callText : jsstring;
    callSource : option jsstring;
    callTarget : option jsstring }.

(** What one [async (name) => ...] callback of [settings.services.map]
    settles to: [null], [{ result, name }], or a rejection. *)
Inductive Task :=
| taskNull
| taskResult (result name : jsstring)
| taskRejected.

Section Dispatch.

Variable settings : Settings.
Variable axiosInstance : AxiosInstance.
Variable sourceLanguageCode : jsstring.
Variable text : jsstring.

(** The body of the callback for one service name.  The callback runs
    synchronously up to its [await], that is up to and including the call
    of [service.translate] with its evaluated arguments, before [map] moves
    to the next name; so the reads and the assignment of the captured
    [let targetLanguageCode] happen in list order, and the variable is
    threaded through as state.  The result is the task's outcome, the
    value of the variable afterwards and the call made, if any. *)
Definition translateTask (name targetLanguageCode : jsstring)
  : Task * jsstring * list Call :=
  match servicesData name with
  | None => (taskNull, targetLanguageCode, [])
  | Some service =>
      match languagesMap service sourceLanguageCode with
      | None =>
          (taskResult
             (messagesMap.unsupportedSourceLanguage (interfaceLanguage settings))
             name,
           targetLanguageCode, [])
      | Some _ =>
          let targetLanguageCode :=
            if eqb targetLanguageCode AUTO
               || match languagesMap service targetLanguageCode with
                  | None => true
                  | Some _ => false
                  end
            then (if regExp_test text then lit "en" else lit "zh")
            else targetLanguageCode in
          let src := languagesMap service sourceLanguageCode in
          let tgt := languagesMap service targetLanguageCode in
          (match translate service text src tgt axiosInstance settings with
           | fulfilled result => taskResult result name
           | rejected => taskRejected
           end,
           targetLanguageCode,
           [mkCall name text src tgt])
      end
  end.

(** [settings.services.map(async (name) => ...)]: the tasks in list order,
    the final value of [targetLanguageCode] and the calls made. *)
Fixpoint translatePromises (names : list jsstring) (targetLanguageCode : jsstring)
  : list Task * jsstring * list Call :=
  match names with
  | [] => ([], targetLanguageCode, [])
  | name :: rest =>
      let '(task, target1, calls1) := translateTask name targetLanguageCode in
      let '(tasks, target2, calls2) := translatePromises rest target1 in
      (task :: tasks, target2, calls1 ++ calls2)
  end.

(** [await Promise.all(tasks)]: the values in order, or a rejection as
    soon as one task rejects. *)
Fixpoint promiseAll (tasks : list Task)
  : Settled (list (option (jsstring * jsstring))) :=
  match tasks with
  | [] => fulfilled []
  | taskRejected :: _ => rejected
  | task :: rest =>
      match promiseAll rest with
      | rejected => rejected
      | fulfilled values =>
          fulfilled (match task with
                     | taskResult result name => Some (result, name)
                     | _ => None
                     end :: values)
      end
  end.

(** [results.filter(item => item !== null)]. *)
Fixpoint notNull (A : Type) (results : list (option A)) : list A :=
  match results with
  | [] => []
  | Some item :: rest => item :: notNull rest
  | None :: rest => notNull rest
  end.

(** The callback of the final [map]: a result item, or a [TypeError]
    ([None]) when a name table has no entry for the code or the service. *)
Definition responseItem (targetLanguageCode : jsstring)
    (item : jsstring * jsstring) : option ResultItem :=
  let '(result, name) := item in
  let l := interfaceLanguage settings in
  match languageNamesMap sourceLanguageCode,
        languageNamesMap targetLanguageCode,
        serviceNamesMap name with
  | Some sourceNames, Some targetNames, Some serviceNames =>
      Some (mkItem result
              (tpl (sourceNames l) ++ arrow ++ tpl (targetNames l)
               ++ lit "  [" ++ tpl (serviceNames l) ++ lit "]")
              (assetsPath ++ lit "/service_icon/" ++ name ++ lit ".png")
              (Some (custom (lit "copy") [result])))
  | _, _, _ => None
  end.

(** [l.map(f)] for a callback that may throw. *)
Fixpoint mapThrowing (A B : Type) (f : A -> option B) (l : list A)
  : option (list B) :=
  match l with
  | [] => Some []
  | x :: r =>
      match f x with
      | None => None
      | Some y =>
          match mapThrowing f r with
          | None => None
          | Some ys => Some (y :: ys)
          end
      end
  end.

End Dispatch.

(** What the handler did with the response: the items it added, through
    [flow.add] or [response.add], or nothing because its promise rejected
    first.  Every path of the handler adds at most once. *)
Inductive Response :=
| added (items : list ResultItem)
| failed.

Record Outcome := mkOutcome
  { axios : option AxiosInstance;
    calls : list Call;
    response : Response }.

(** [pair.split('>').map(i => i.trim())] destructured as
    [[source, target]]: a missing element is [undefined]. *)
Definition pairCodes (pair : jsstring) : option jsstring * option jsstring :=
  let parts := map trim (split GT pair) in
  (nth_error parts 0, nth_error parts 1).

(** The filter of the configured pairs. *)
Definition validPair (pair : jsstring) : bool :=
  let '(source, target) := pairCodes pair in
  includes languageCodesArr source && includes languageCodesArr target.

(** The item of a quick-select pair; [None] is the [TypeError] of reading
    a property of [undefined].  A key that is [undefined] reads the
    property named ["undefined"]. *)
Definition pairItem (settings : Settings) (pair : jsstring) : option ResultItem :=
  let '(source, target) := pairCodes pair in
  let l := interfaceLanguage settings in
  match languageNamesMap (tpl source), languageNamesMap (tpl target) with
  | Some sourceNames, Some targetNames =>
      let sourceName := orElse (sourceNames l) source in
      let targetName := orElse (targetNames l) target in
      Some (mkItem (tpl sourceName ++ arrow ++ tpl targetName)
              (messagesMap.quickSelect l ++ lit " " ++ tpl source ++ arrow
               ++ tpl target)
              (assetsPath ++ lit "/info.png")
              (Some (changeQuery
                       (triggerKeyword settings ++ lit " " ++ pair ++ lit " ")
                       true)))
  | _, _ => None
  end.

(** The "default selected" item of a source and target pair whose names
    entries are at hand. *)
Definition defaultItem (l : InterfaceLanguage) (source target : jsstring)
    (sourceNames targetNames : Names) : ResultItem :=
  mkItem (tpl (sourceNames l) ++ arrow ++ tpl (targetNames l))
    (messagesMap.defaultSelected l ++ lit " " ++ source ++ arrow ++ target)
    (assetsPath ++ lit "/info.png")
    None.

Definition warningItem (title subtitle : jsstring) : ResultItem :=
  mkItem title subtitle (assetsPath ++ lit "/warning.png") None.

(** The [query] handler, from the parsed settings on.  [axiosInstance] is
    the variable of [main] the handler fills on first use; the debounce
    delay only postpones the dispatch and is not modelled.  A service's
    [translate] is a function of its arguments: what the call settles to
    is all the handler sees of it. *)
Definition query (axiosInstance : option AxiosInstance) (prompt : jsstring)
    (settings : Settings) : Outcome :=
  let l := interfaceLanguage settings in
  let client := match axiosInstance with
                | Some a => a
                | None => createAxiosInstance settings
                end in
  let reply calls response := mkOutcome (Some client) calls response in
  match services settings with
  | None | Some [] =>
      (* no services configured *)
      reply [] (added [warningItem (messagesMap.noServicesConfigured l)
                         (messagesMap.noServicesConfiguredSubtitle l)])
  | Some names =>
      match languageNamesMap (sourceLanguageCode settings) with
      | None =>
          (* unsupported source language *)
          reply [] (added [warningItem
                             (messagesMap.unsupportedSourceLanguage l ++ lit " "
                              ++ sourceLanguageCode settings)
                             (messagesMap.unsupportedSourceLanguageSubtitle l)])
      | Some sourceNames =>
          match languageNamesMap (targetLanguageCode settings) with
          | None =>
              (* unsupported target language *)
              reply [] (added [warningItem
                                 (messagesMap.unsupportedTargetLanguage l ++ lit " "
                                  ++ targetLanguageCode settings)
                                 (messagesMap.unsupportedTargetLanguageSubtitle l)])
          | Some targetNames =>
              let pairs := match languagePairs settings with
                           | Some ps => ps
                           | None => []
                           end in
              if negb (Nat.eqb (length pairs) 0)
                 && Nat.eqb (length (trim prompt)) 0
              then
                (* no prompt and show quick select: language pairs *)
                let validPairs := filter validPair pairs in
                match mapThrowing (pairItem settings) validPairs with
                | None => reply [] failed
                | Some items =>
                    reply [] (added (defaultItem l (sourceLanguageCode settings)
                                       (targetLanguageCode settings)
                                       sourceNames targetNames :: items))
                end
              else
                (* parse prompt to prefix and text *)
                let parsed := parsePrompt languageCodesArr prompt
                                (sourceLanguageCode settings)
                                (targetLanguageCode settings) in
                let source := Prompt.sourceLanguageCode parsed in
                let target := Prompt.targetLanguageCode parsed in
                let text := Prompt.text parsed in
                if Nat.eqb (length text) 0 || Nat.eqb (length (trim text)) 0
                then
                  match languageNamesMap source, languageNamesMap target with
                  | Some sourceNames, Some targetNames =>
                      reply [] (added [defaultItem l source target
                                         sourceNames targetNames])
                  | _, _ => reply [] failed
                  end
                else
                  let '(tasks, target, calls) :=
                    translatePromises settings client source text names target in
                  match promiseAll tasks with
                  | rejected => reply calls failed
                  | fulfilled results =>
                      match mapThrowing (responseItem settings source target)
                              (notNull results) with
                      | None => reply calls failed
                      | Some responseItems => reply calls (added responseItems)
                      end
                  end
          end
      end
  end.

(** *** Conditions used in the statements *)

(** The text-sniffed target: [regExp.test(text) ? 'en' : 'zh']. *)
Definition sniffed (text : jsstring) : jsstring :=
  if regExp_test text then lit "en" else lit "zh".

Definition defined (A : Type) (v : option A) : bool :=
  match v with Some _ => true | None => false end.

(** The three precondition checks pass. *)
Definition preconditionsPass (settings : Settings) : bool :=
  match services settings with
  | None | Some [] => false
  | Some _ =>
      defined (languageNamesMap (sourceLanguageCode settings))
      && defined (languageNamesMap (targetLanguageCode settings))
  end.

(** The condition of the quick-select branch. *)
Definition quickSelectCondition (prompt : jsstring) (settings : Settings) : bool :=
  match languagePairs settings with
  | Some pairs =>
      negb (Nat.eqb (List.length pairs) 0)
      && Nat.eqb (List.length (trim prompt)) 0
  | None => false
  end.

(** [!text || text.trim().length === 0] on the parsed text. *)
Definition parsedTextEmpty (prompt : jsstring) (settings : Settings) : bool :=
  let text := Prompt.text (parsePrompt languageCodesArr prompt
                             (sourceLanguageCode settings)
                             (targetLanguageCode settings)) in
  Nat.eqb (List.length text) 0 || Nat.eqb (List.length (trim text)) 0.

(** The query reaches the fan-out over the services. *)
Definition dispatches (prompt : jsstring) (settings : Settings) : bool :=
  preconditionsPass settings
  && negb (quickSelectCondition prompt settings)
  && negb (parsedTextEmpty prompt settings).

(** Every valid code has an entry in the names table. *)
Definition codesNamed : bool :=
  forallb (fun c => defined (languageNamesMap c)) languageCodesArr.

(** The service called rejects this call. *)
Definition callRejects (settings : Settings) (client : AxiosInstance)
    (c : Call) : bool :=
  match servicesData (callee c) with
  | Some service =>
      match translate service (callText c) (callSource c) (callTarget c)
              client settings with
      | rejected => true
      | fulfilled _ => false
      end
  | None => false
  end.

Definition registered (name : jsstring) : bool :=
  defined (servicesData name).

Definition serviceIcon (name : jsstring) : jsstring :=
  assetsPath ++ lit "/service_icon/" ++ name ++ lit ".png".

(** What a registered service contributes to the joined results when
    nothing rejects: a result under its own name, which is the notice if
    the service lacks the source. *)
Definition contribution (settings : Settings) (source name : jsstring)
    (value : jsstring * jsstring) : Prop :=
  snd value = name
  /\ forall service, servicesData name = Some service ->
     languagesMap service source = None ->
     fst value = messagesMap.unsupportedSourceLanguage (interfaceLanguage settings).

(** The same on the result items. *)
Definition contributes (settings : Settings) (source name : jsstring)
    (item : ResultItem) : Prop :=
  icoPath item = serviceIcon name
  /\ forall service, servicesData name = Some service ->
     languagesMap service source = None ->
     title item = messagesMap.unsupportedSourceLanguage (interfaceLanguage settings).

(** How the configured names, the calls made and the items added line
    up when nothing rejects: a name missing from the registry has neither
    call nor item; a registered service that lacks the source has no call
    and the item of the notice; a registered service that supports the
    source has the next call, made with the text and its code for the
    source, and the item of what that call was fulfilled with.  The item
    of a result under a service name is the one [responseItem] builds, with
    [finalTarget] the target it is labelled with. *)
Inductive Shown (settings : Settings) (client : AxiosInstance)
    (source text finalTarget : jsstring)
  : list jsstring -> list Call -> list ResultItem -> Prop :=
| shown_end : Shown settings client source text finalTarget [] [] []
| shown_unregistered name names cs items :
    servicesData name = None ->
    Shown settings client source text finalTarget names cs items ->
    Shown settings client source text finalTarget (name :: names) cs items
| shown_notice name service names cs items item :
    servicesData name = Some service ->
    languagesMap service source = None ->
    responseItem settings source finalTarget
      (messagesMap.unsupportedSourceLanguage (interfaceLanguage settings), name)
    = Some item ->
    Shown settings client source text finalTarget names cs items ->
    Shown settings client source text finalTarget (name :: names) cs
      (item :: items)
| shown_result name service names c cs items item result :
    servicesData name = Some service ->
    languagesMap service source <> None ->
    callee c = name ->
    callText c = text ->
    callSource c = languagesMap service source ->
    translate service text (callSource c) (callTarget c) client settings
    = fulfilled result ->
    responseItem settings source finalTarget (result, name) = Some item ->
    Shown settings client source text finalTarget names cs items ->
    Shown settings client source text finalTarget (name :: names) (c :: cs)
      (item :: items).

(** The service is registered and has a code for the source: the two
    tests a name passes before its callback reaches [translate]. *)
Definition callable (source name : jsstring) : bool :=
  match servicesData name with
  | Some service => defined (languagesMap service source)
  | None => false
  end.

End Handler.

(** ** The [copy] handler *)

(** [flow.on('copy', ({ parameters: [result] }) => clipboard.writeSync(result))]:
    the value handed to [clipboard.writeSync], which is [undefined]
    ([None]) when the parameter list is empty. *)
Definition copy (parameters : list jsstring) : option jsstring :=
  nth_error parameters 0.

(** The Unicode block CJK Unified Ideographs, U+4E00..U+9FFF. *)
Definition cjkUnifiedIdeograph (c : N) : bool :=
  ((19968 <=? c) && (c <=? 40959))%N.

(** ** The prefix grammar as the specification words it *)

(** [<code>] of the wire format: a non-empty word over [[a-z_]]. *)
Definition isCode (c : jsstring) : Prop :=
  c <> [] /\ Forall (fun x => isCodeChar x = true) c.

Definition validCode (codes : list jsstring) (c : jsstring) : Prop :=
  isCode c /\ In c codes.

(** The three forms of a prefix, with the pair each one resolves to. *)
Inductive Form (codes : list jsstring) (oldSource oldTarget prefix : jsstring)
  : jsstring -> jsstring -> Prop :=
| formA source target :
    prefix = source ++ GT :: target ->
    validCode codes source -> validCode codes target ->
    Form codes oldSource oldTarget prefix source target
| formB source :
    prefix = source ++ [GT] ->
    validCode codes source ->
    Form codes oldSource oldTarget prefix source oldTarget
| formC target :
    prefix = target \/ prefix = GT :: target ->
    validCode codes target ->
    Form codes oldSource oldTarget prefix oldSource target.

(** The prompt cut at index [i] of its delimiter ([-1]: no delimiter): the
    prefix candidate and the trimmed remainder. *)
Definition cutAt (i : Z) (prompt : jsstring) : jsstring * jsstring :=
  if (i =? -1)%Z then (prompt, [])
  else (substring 0 i prompt, trim (substringFrom (i + 1) prompt)).

(** Cut at the first space character, U+0020. *)
Definition cutAtSpace (prompt : jsstring) : jsstring * jsstring :=
  cutAt (indexOf SPACE prompt) prompt.

(** Cut at the first whitespace character of any kind. *)
Definition cutAtWhiteSpace (prompt : jsstring) : jsstring * jsstring :=
  cutAt (search isWhiteSpace prompt) prompt.

(** The grammar rule for a given way of cutting the prompt: a prefix of
    one of the forms resolves to that form's pair with the remainder as
    text, and a prefix of no form leaves the defaults and the whole
    prompt. *)
Definition grammarRule (cut : jsstring -> jsstring * jsstring)
    (codes : list jsstring) (prompt oldSource oldTarget : jsstring) : Prop :=
  let (prefix, rest) := cut prompt in
  (forall source target,
      Form codes oldSource oldTarget prefix source target ->
      parsePrompt codes prompt oldSource oldTarget
      = Prompt.mk source target rest)
  /\ ((forall source target,
          ~ Form codes oldSource oldTarget prefix source target) ->
      parsePrompt codes prompt oldSource oldTarget
      = Prompt.mk oldSource oldTarget prompt).

(** ** Tables and settings used in the examples *)

Definition demoCodes : list jsstring := [lit "auto"; lit "en"; lit "zh"].

Fixpoint lookup (A : Type) (table : list (jsstring * A)) (key : jsstring)
  : option A :=
  match table with
  | [] => None
  | (k, v) :: rest => if eqb k key then Some v else lookup rest key
  end.

Definition names (e z : string) : Names :=
  fun l => match l with
           | en => Some (lit e)
           | zh => Some (lit z)
           | tr => None
           end.

Definition demoNames : jsstring -> option Names :=
  lookup [(lit "auto", names "Auto" "Zidong");
          (lit "en", names "English" "Yingyu");
          (lit "zh", names "Chinese" "Zhongwen")].

(** Three services over a client of type [unit]: [echo] supports every
    code and answers with the text; [down] supports every code and
    rejects; [enonly] knows English alone. *)
Definition allCodes : jsstring -> option jsstring :=
  lookup [(lit "auto", lit "auto"); (lit "en", lit "EN"); (lit "zh", lit "ZH")].

Definition echo : Service unit :=
  mkService allCodes (fun text _ _ _ _ => fulfilled text).

Definition down : Service unit :=
  mkService allCodes (fun _ _ _ _ _ => rejected).

Definition enonly : Service unit :=
  mkService (lookup [(lit "en", lit "eng")])
            (fun text _ _ _ _ => fulfilled text).

Definition demoServices : jsstring -> option (Service unit) :=
  lookup [(lit "echo", echo); (lit "down", down); (lit "enonly", enonly)].

Definition demoServiceNames : jsstring -> option Names :=
  lookup [(lit "echo", names "Echo" "Huisheng");
          (lit "down", names "Down" "Guanbi");
          (lit "enonly", names "English only" "Jin Yingyu")].

Definition demoSettings (source target : string) (services : list string)
    (pairs : list string) : Settings :=
  mkSettings en (lit source) (lit target) (lit "tr")
    (Some (map lit services)) (Some (map lit pairs)) 500.

Definition demoQuery (prompt : jsstring) (settings : Settings) : Outcome unit :=
  query (fun _ => tt) demoCodes demoNames demoServices demoServiceNames
    (lit "assets") None prompt settings.

(** ** Lemmas on the string primitives *)

Unset Implicit Arguments.

Lemma eqb_eq (a b : jsstring) : eqb a b = true <-> a = b.
Proof.
  revert b; induction a as [|x a IH]; intros [|y b]; simpl;
    try (split; [discriminate | congruence]); try tauto.
  rewrite andb_true_iff, N.eqb_eq, IH. split.
  - intros [-> ->]; reflexivity.
  - intros H; injection H; auto.
Qed.

Lemma eqb_refl (a : jsstring) : eqb a a = true.
Proof. apply eqb_eq; reflexivity. Qed.

Lemma includes_In (codes : list jsstring) (c : jsstring) :
  includes codes (Some c) = true <-> In c codes.
Proof.
  simpl. rewrite existsb_exists. split.
  - intros (x & Hx & E). apply eqb_eq in E. subst; assumption.
  - intros H. exists c. split; [assumption | apply eqb_refl].
Qed.

Lemma indexOf_lower (c : N) (s : jsstring) : (-1 <= indexOf c s)%Z.
Proof.
  induction s as [|x r IH]; simpl; [lia|].
  destruct (N.eqb x c); [lia|].
  destruct (Z.eqb_spec (indexOf c r) (-1)); lia.
Qed.

(** A character of the class is found no later than its first occurrence. *)
Lemma search_le_indexOf (p : N -> bool) (c : N) (s : jsstring) :
  p c = true -> indexOf c s <> (-1)%Z ->
  (0 <= search p s <= indexOf c s)%Z.
Proof.
  intros Hc. induction s as [|x r IH]; simpl; [congruence|].
  destruct (N.eqb_spec x c) as [->|Hx].
  - rewrite Hc. lia.
  - destruct (p x).
    + pose proof (indexOf_lower c r).
      destruct (Z.eqb_spec (indexOf c r) (-1)); lia.
    + destruct (Z.eqb_spec (indexOf c r) (-1)) as [E|E]; [congruence|].
      intros _. specialize (IH E).
      destruct (Z.eqb_spec (search p r) (-1)); lia.
Qed.

Lemma search_found (p : N -> bool) (s : jsstring) :
  search p s <> (-1)%Z -> exists c, In c s /\ p c = true.
Proof.
  induction s as [|x r IH]; simpl; [congruence|].
  destruct (p x) eqn:Hx.
  - intros _. exists x. auto.
  - destruct (Z.eqb_spec (search p r) (-1)) as [E|E]; [congruence|].
    intros _. destruct (IH E) as (c & Hin & Hc). exists c. auto.
Qed.

Lemma trimStart_nil (s : jsstring) :
  trimStart s = [] -> forallb isWhiteSpace s = true.
Proof.
  induction s as [|c r IH]; simpl; [reflexivity|].
  destruct (isWhiteSpace c); [exact IH | discriminate].
Qed.

Lemma trimStart_head (s : jsstring) :
  match trimStart s with
  | [] => True
  | c :: _ => isWhiteSpace c = false
  end.
Proof.
  induction s as [|c r IH]; simpl; [exact I|].
  destruct (isWhiteSpace c) eqn:E; [exact IH | exact E].
Qed.

(** A string that trims to nothing holds whitespace only. *)
Lemma trim_nil (s : jsstring) :
  trim s = [] -> forallb isWhiteSpace s = true.
Proof.
  unfold trim, trimEnd. intros H.
  assert (H' : trimStart (rev (trimStart s)) = []).
  { rewrite <- (rev_involutive (trimStart (rev (trimStart s)))), H. reflexivity. }
  apply trimStart_nil in H'.
  pose proof (trimStart_head s) as Hh.
  destruct (trimStart s) as [|c r] eqn:E; [apply trimStart_nil; exact E|].
  rewrite forallb_forall in H'.
  rewrite (H' c) in Hh; [discriminate|].
  apply in_rev. rewrite rev_involutive. left; reflexivity.
Qed.

(** ** Lemmas on the three expressions *)

Lemma span_spec (p : N -> bool) (s a b : jsstring) :
  span p s = (a, b) ->
  s = a ++ b /\ forallb p a = true
  /\ match b with [] => True | c :: _ => p c = false end.
Proof.
  revert a b; induction s as [|x r IH]; simpl; intros a b H.
  - injection H as <- <-. auto.
  - destruct (p x) eqn:Hx.
    + destruct (span p r) as [a' b'] eqn:E. injection H as <- <-.
      destruct (IH _ _ eq_refl) as (-> & Ha & Hb).
      simpl. rewrite Hx, Ha. auto.
    + injection H as <- <-. simpl. auto.
Qed.

Lemma span_app (p : N -> bool) (a b : jsstring) :
  forallb p a = true ->
  match b with [] => True | c :: _ => p c = false end ->
  span p (a ++ b) = (a, b).
Proof.
  intros Ha Hb. induction a as [|x a IH]; simpl in *.
  - destruct b as [|c b]; simpl; [reflexivity | rewrite Hb; reflexivity].
  - apply andb_true_iff in Ha as [Hx Ha]. rewrite Hx, (IH Ha). reflexivity.
Qed.

Lemma isCode_forallb (c : jsstring) :
  isCode c <-> c <> [] /\ forallb isCodeChar c = true.
Proof. unfold isCode. rewrite forallb_forall, Forall_forall. tauto. Qed.

Lemma GT_not_code : isCodeChar GT = false.
Proof. reflexivity. Qed.

Lemma match1_Some (prefix a b : jsstring) :
  match1 prefix = Some (a, b) <->
  prefix = a ++ GT :: b /\ isCode a /\ isCode b.
Proof.
  unfold match1. rewrite !isCode_forallb. split.
  - destruct (span isCodeChar prefix) as [[|c a'] [|g r]] eqn:E; try discriminate.
    destruct (N.eqb_spec g GT) as [->|]; [|discriminate].
    destruct (span isCodeChar r) as [[|d b'] [|? ?]] eqn:E2; try discriminate.
    intros H; injection H as <- <-.
    apply span_spec in E as (-> & Ha & _).
    apply span_spec in E2 as (-> & Hb & _).
    rewrite app_nil_r. repeat split; try assumption; discriminate.
  - intros (-> & [Ha Fa] & [Hb Fb]).
    rewrite (span_app isCodeChar a (GT :: b) Fa GT_not_code).
    destruct a as [|c a]; [congruence|]. simpl N.eqb.
    replace b with (b ++ []) at 1 by apply app_nil_r.
    rewrite (span_app isCodeChar b [] Fb I).
    destruct b as [|d b]; [congruence|]. reflexivity.
Qed.

Lemma match2_Some (prefix a : jsstring) :
  match2 prefix = Some a <-> prefix = a ++ [GT] /\ isCode a.
Proof.
  unfold match2. rewrite isCode_forallb. split.
  - destruct (span isCodeChar prefix) as [[|c a'] [|g [|? ?]]] eqn:E;
      try discriminate.
    destruct (N.eqb_spec g GT) as [->|]; [|discriminate].
    intros H; injection H as <-.
    apply span_spec in E as (-> & Ha & _).
    repeat split; try assumption; discriminate.
  - intros (-> & Ha & Fa).
    rewrite (span_app isCodeChar a [GT] Fa GT_not_code).
    destruct a as [|c a]; [congruence|]. reflexivity.
Qed.

Lemma match3_Some (prefix b : jsstring) :
  match3 prefix = Some b <->
  (prefix = b \/ prefix = GT :: b) /\ isCode b.
Proof.
  unfold match3. rewrite isCode_forallb. split.
  - intros H.
    assert (Hb : forall body, match span isCodeChar body with
                              | (c :: a, []) => Some (c :: a)
                              | _ => None
                              end = Some b ->
                              body = b /\ b <> [] /\ forallb isCodeChar b = true).
    { intros body. destruct (span isCodeChar body) as [[|c a] [|? ?]] eqn:E;
        try discriminate.
      intros H'; injection H' as <-.
      apply span_spec in E as (-> & Ha & _). rewrite app_nil_r.
      repeat split; try assumption; discriminate. }
    destruct prefix as [|g r].
    + apply Hb in H as (<- & Hne & _). congruence.
    + destruct (N.eqb_spec g GT) as [->|].
      * apply Hb in H as (-> & Hne & Hf). auto.
      * apply Hb in H as (-> & Hne & Hf). auto.
  - intros ([->| ->] & Hne & Fb).
    + destruct b as [|c b]; [congruence|].
      assert (N.eqb c GT = false) as ->.
      { simpl in Fb. apply andb_true_iff in Fb as [Hc _].
        destruct (N.eqb_spec c GT) as [->|]; [discriminate | reflexivity]. }
      replace (c :: b) with ((c :: b) ++ []) at 1 by apply app_nil_r.
      rewrite (span_app isCodeChar (c :: b) [] Fb I). reflexivity.
    + simpl N.eqb.
      replace b with (b ++ []) at 1 by apply app_nil_r.
      rewrite (span_app isCodeChar b [] Fb I).
      destruct b as [|c b]; [congruence|]. reflexivity.
Qed.

(** ** The prompt parser *)

(** Below the length guard, [parsePrompt] is the chain of the three parts
    on the prompt cut at its first space. *)
Lemma parsePrompt_cut (codes : list jsstring) (p s t prefix rest : jsstring) :
  (indexOf SPACE p <= 15)%Z ->
  cutAtSpace p = (prefix, rest) ->
  parsePrompt codes p s t =
  match match1 prefix with
  | Some (a, b) =>
      if includes codes (Some a) && includes codes (Some b)
      then Prompt.mk a b rest
      else match match2 prefix with
           | Some a => if includes codes (Some a) then Prompt.mk a t rest
                       else match match3 prefix with
                            | Some b => if includes codes (Some b)
                                        then Prompt.mk s b rest
                                        else Prompt.mk s t p
                            | None => Prompt.mk s t p
                            end
           | None => match match3 prefix with
                     | Some b => if includes codes (Some b)
                                 then Prompt.mk s b rest
                                 else Prompt.mk s t p
                     | None => Prompt.mk s t p
                     end
           end
  | None => match match2 prefix with
            | Some a => if includes codes (Some a) then Prompt.mk a t rest
                        else match match3 prefix with
                             | Some b => if includes codes (Some b)
                                         then Prompt.mk s b rest
                                         else Prompt.mk s t p
                             | None => Prompt.mk s t p
                             end
            | None => match match3 prefix with
                      | Some b => if includes codes (Some b)
                                  then Prompt.mk s b rest
                                  else Prompt.mk s t p
                      | None => Prompt.mk s t p
                      end
            end
  end.
Proof.
  intros Hle Hcut. unfold parsePrompt. cbv zeta.
  destruct (Z.ltb_spec 15 (indexOf SPACE p)) as [Hlt|_]; [lia|].
  unfold cutAtSpace, cutAt in Hcut.
  destruct (indexOf SPACE p =? -1)%Z; injection Hcut as <- <-; cbv beta iota;
    match goal with
    | |- context [match1 ?x] =>
        destruct (match1 x) as [[a b]|];
        [destruct (includes codes (Some a) && includes codes (Some b))|];
        try reflexivity;
        (destruct (match2 x) as [a'|];
         [destruct (includes codes (Some a'))|]; try reflexivity;
         (destruct (match3 x) as [b'|];
          [destruct (includes codes (Some b'))|]; reflexivity))
    end.
Qed.

(** The three forms exclude one another at the level of the expressions. *)
Lemma isCode_no_GT (c : jsstring) : isCode c -> ~ In GT c.
Proof.
  intros [_ H] Hin. rewrite Forall_forall in H.
  specialize (H _ Hin). discriminate.
Qed.

Lemma match1_not_form_BC (prefix a : jsstring) :
  isCode a -> prefix = a ++ [GT] \/ prefix = a \/ prefix = GT :: a ->
  match1 prefix = None.
Proof.
  intros Ha H. destruct (match1 prefix) as [[x y]|] eqn:E; [|reflexivity].
  exfalso. apply match1_Some in E as (-> & Hx & Hy).
  destruct Hx as [Hxne Hx], Hy as [Hyne Hy].
  destruct H as [H|[H|H]].
  - (* x > y = a > *)
    assert (L : List.length (x ++ GT :: y) = List.length (a ++ [GT]))
      by (rewrite H; reflexivity).
    assert (Hs : span isCodeChar (x ++ GT :: y) = span isCodeChar (a ++ [GT]))
      by (rewrite H; reflexivity).
    rewrite (span_app isCodeChar x (GT :: y)), (span_app isCodeChar a [GT]) in Hs;
      try apply GT_not_code;
      try (apply forallb_forall; apply Forall_forall; assumption || apply Ha).
    injection Hs as _ ->. congruence.
  - apply (isCode_no_GT a Ha). rewrite <- H. apply in_or_app; right; left; reflexivity.
  - destruct x as [|c x]; [congruence|]. injection H as -> _.
    inversion Hx; subst. discriminate.
Qed.

Lemma match2_not_form_C (prefix a : jsstring) :
  isCode a -> prefix = a \/ prefix = GT :: a -> match2 prefix = None.
Proof.
  intros Ha H. destruct (match2 prefix) as [x|] eqn:E; [|reflexivity].
  exfalso. apply match2_Some in E as (-> & Hxne & Hx).
  destruct H as [H|H].
  - apply (isCode_no_GT a Ha). rewrite <- H. apply in_or_app; right; left; reflexivity.
  - destruct x as [|c x]; [congruence|]. injection H as -> _.
    inversion Hx; subst. discriminate.
Qed.

Lemma parsePrompt_grammar (codes : list jsstring) (p s t prefix rest : jsstring) :
  (indexOf SPACE p <= 15)%Z ->
  cutAtSpace p = (prefix, rest) ->
  (forall source target,
      Form codes s t prefix source target ->
      parsePrompt codes p s t = Prompt.mk source target rest)
  /\ ((forall source target, ~ Form codes s t prefix source target) ->
      parsePrompt codes p s t = Prompt.mk s t p).
Proof.
  intros Hle Hcut. rewrite (@parsePrompt_cut codes p s t prefix rest Hle Hcut). split.
  - intros source target F. destruct F as [a b E [Ca Ia] [Cb Ib] | a E [Ca Ia] | b E [Cb Ib]].
    + rewrite (proj2 (match1_Some prefix a b)) by auto.
      rewrite (proj2 (includes_In codes a) Ia), (proj2 (includes_In codes b) Ib).
      reflexivity.
    + rewrite (match1_not_form_BC prefix a) by auto.
      rewrite (proj2 (match2_Some prefix a)) by auto.
      rewrite (proj2 (includes_In codes a) Ia). reflexivity.
    + rewrite (match1_not_form_BC prefix b) by tauto.
      rewrite (match2_not_form_C prefix b) by auto.
      rewrite (proj2 (match3_Some prefix b)) by auto.
      rewrite (proj2 (includes_In codes b) Ib). reflexivity.
  - intros NF.
    assert (P1 : forall a b, match1 prefix = Some (a, b) ->
                 includes codes (Some a) && includes codes (Some b) = false).
    { intros a b E. apply match1_Some in E as (E & Ca & Cb).
      destruct (includes codes (Some a) && includes codes (Some b)) eqn:I;
        [|reflexivity].
      apply andb_true_iff in I as [Ia Ib].
      exfalso. apply (NF a b). apply formA; try assumption;
        split; try assumption; apply includes_In; assumption. }
    assert (P2 : forall a, match2 prefix = Some a -> includes codes (Some a) = false).
    { intros a E. apply match2_Some in E as (E & Ca).
      destruct (includes codes (Some a)) eqn:I; [|reflexivity].
      exfalso. apply (NF a t). apply formB; try assumption.
      split; [assumption | apply includes_In; assumption]. }
    assert (P3 : forall b, match3 prefix = Some b -> includes codes (Some b) = false).
    { intros b E. apply match3_Some in E as (E & Cb).
      destruct (includes codes (Some b)) eqn:I; [|reflexivity].
      exfalso. apply (NF s b). apply formC; try assumption.
      split; [assumption | apply includes_In; assumption]. }
    destruct (match1 prefix) as [[a b]|]; [rewrite (P1 a b eq_refl)|];
      (destruct (match2 prefix) as [a'|]; [rewrite (P2 a' eq_refl)|];
       (destruct (match3 prefix) as [b'|]; [rewrite (P3 b' eq_refl)|]; reflexivity)).
Qed.

(** The codes [parsePrompt] resolves to are the old ones or valid ones. *)
Lemma parsePrompt_codes (codes : list jsstring) (p s t : jsstring) :
  (Prompt.sourceLanguageCode (parsePrompt codes p s t) = s
   \/ In (Prompt.sourceLanguageCode (parsePrompt codes p s t)) codes)
  /\ (Prompt.targetLanguageCode (parsePrompt codes p s t) = t
      \/ In (Prompt.targetLanguageCode (parsePrompt codes p s t)) codes).
Proof.
  unfold parsePrompt. cbv zeta.
  destruct (15 <? indexOf SPACE p)%Z; [simpl; auto|].
  destruct (if (indexOf SPACE p =? -1)%Z then _ else _) as [prefix rest].
  destruct (match1 prefix) as [[a b]|];
    [destruct (includes codes (Some a) && includes codes (Some b)) eqn:I1|].
  1: { apply andb_true_iff in I1 as [Ia Ib].
       apply includes_In in Ia, Ib. simpl; auto. }
  all: destruct (match2 prefix) as [a'|];
    [destruct (includes codes (Some a')) eqn:I2|];
    try (apply includes_In in I2; simpl; auto);
    (destruct (match3 prefix) as [b'|];
     [destruct (includes codes (Some b')) eqn:I3|];
     try (apply includes_In in I3); simpl; auto).
Qed.

(** A prefix of one of the forms holds code characters and [>] only. *)
Lemma Form_chars (codes : list jsstring) (s t prefix a b : jsstring) (c : N) :
  Form codes s t prefix a b -> In c prefix ->
  isCodeChar c = true \/ c = GT.
Proof.
  assert (K : forall w, validCode codes w -> In c w -> isCodeChar c = true).
  { intros w [[_ H] _] Hin. rewrite Forall_forall in H. auto. }
  intros [x y -> Hx Hy | x -> Hx | y [->| ->] Hy] Hin.
  - apply in_app_or in Hin as [Hin|[<-|Hin]]; eauto.
  - apply in_app_or in Hin as [Hin|[<-|[]]]; eauto.
  - eauto.
  - destruct Hin as [<-|Hin]; eauto.
Qed.

Lemma whitespace_not_prefix_char (c : N) :
  isWhiteSpace c = true -> isCodeChar c = false /\ c <> GT.
Proof.
  unfold isWhiteSpace, isCodeChar, GT. intros H.
  rewrite ?orb_true_iff, ?andb_true_iff, ?N.leb_le, ?N.eqb_eq in H.
  split; [|lia].
  destruct ((97 <=? c)%N && (c <=? 122)%N || (c =? 95)%N) eqn:E; [|reflexivity].
  rewrite ?orb_true_iff, ?andb_true_iff, ?N.leb_le, ?N.eqb_eq in E. lia.
Qed.

Lemma Form_nonempty (codes : list jsstring) (s t prefix a b : jsstring) :
  Form codes s t prefix a b ->
  exists c, In c prefix /\ (isCodeChar c = true \/ c = GT).
Proof.
  intros [x y -> _ _ | x -> _ | y [->| ->] [[Hne Hy] _]].
  - exists GT. split; [apply in_or_app; right; left; reflexivity | auto].
  - exists GT. split; [apply in_or_app; right; left; reflexivity | auto].
  - destruct y as [|c y]; [congruence|]. exists c. split; [left; reflexivity|].
    left. inversion Hy; assumption.
  - exists GT. split; [left; reflexivity | auto].
Qed.

Lemma cutAt_prefix_incl (i : Z) (p : jsstring) (c : N) :
  In c (fst (cutAt i p)) -> In c p.
Proof.
  unfold cutAt. destruct (i =? -1)%Z; simpl; [auto|].
  unfold substring. intros H.
  rewrite <- (firstn_skipn (Z.to_nat 0) p). apply in_or_app; right.
  rewrite <- (firstn_skipn (Z.to_nat i - Z.to_nat 0) (skipn (Z.to_nat 0) p)).
  apply in_or_app; left. exact H.
Qed.

(** A prompt that trims to nothing resolves to the old pair. *)
Lemma parsePrompt_blank (codes : list jsstring) (p s t : jsstring) :
  trim p = [] -> parsePrompt codes p s t = Prompt.mk s t p.
Proof.
  intros Hb. apply trim_nil in Hb. rewrite forallb_forall in Hb.
  destruct (Z.ltb_spec 15 (indexOf SPACE p)) as [Hlt|Hle].
  - unfold parsePrompt. cbv zeta.
    rewrite (proj2 (Z.ltb_lt _ _) Hlt). reflexivity.
  - destruct (cutAtSpace p) as [prefix rest] eqn:Hcut.
    apply (proj2 (parsePrompt_grammar codes p s t prefix rest Hle Hcut)).
    intros a b F. destruct (Form_nonempty _ _ _ _ _ _ F) as (c & Hin & Hc).
    assert (Hp : In c p).
    { apply (cutAt_prefix_incl (indexOf SPACE p)).
      unfold cutAtSpace in Hcut. rewrite Hcut. exact Hin. }
    destruct (whitespace_not_prefix_char c (Hb c Hp)) as [H1 H2].
    destruct Hc; congruence.
Qed.

(** C7: a prompt whose first whitespace character (of any kind, the space
    included) is at an index greater than 15 is returned whole, with the
    old source and target codes. *)
Theorem length_guard (codes : list jsstring) (p s t : jsstring) :
  (15 < search isWhiteSpace p)%Z ->
  parsePrompt codes p s t = Prompt.mk s t p.
Proof.
  intros Hws.
  destruct (Z.ltb_spec 15 (indexOf SPACE p)) as [Hlt|Hle].
  - unfold parsePrompt. cbv zeta.
    rewrite (proj2 (Z.ltb_lt _ _) Hlt). reflexivity.
  - assert (Hnone : indexOf SPACE p = (-1)%Z).
    { destruct (Z.eq_dec (indexOf SPACE p) (-1)) as [E|E]; [exact E|].
      pose proof (search_le_indexOf isWhiteSpace SPACE p eq_refl E). lia. }
    assert (Hcut : cutAtSpace p = (p, [])).
    { unfold cutAtSpace, cutAt. rewrite Hnone. reflexivity. }
    apply (proj2 (@parsePrompt_grammar codes p s t p [] Hle Hcut)).
    intros a b F.
    destruct (@search_found isWhiteSpace p) as (c & Hin & Hc); [lia|].
    destruct (whitespace_not_prefix_char c Hc) as [Hcode Hgt].
    destruct (Form_chars codes s t p a b c F Hin) as [H|H]; congruence.
Qed.

Lemma length_guard_witness :
  parsePrompt demoCodes (lit "internationalise the docs") (lit "auto") (lit "zh")
  = Prompt.mk (lit "auto") (lit "zh") (lit "internationalise the docs").
Proof. apply length_guard. reflexivity. Defined.

(** C2 (amended): when the first space (U+0020) of the prompt is absent or
    at an index of at most 15, the prompt is cut at that space, and a
    prefix of form A, B or C with valid codes resolves to that form's pair
    with the trimmed remainder as text, while a prefix of no form leaves
    the old codes and the whole prompt. *)
Theorem prefix_grammar_at_first_space (codes : list jsstring) (p s t : jsstring) :
  (indexOf SPACE p <= 15)%Z ->
  grammarRule cutAtSpace codes p s t.
Proof.
  intros Hle. unfold grammarRule.
  destruct (cutAtSpace p) as [prefix rest] eqn:Hcut.
  exact (@parsePrompt_grammar codes p s t prefix rest Hle Hcut).
Qed.

Lemma prefix_grammar_at_first_space_witness :
  (indexOf SPACE (lit "en>zh  hello ") <= 15)%Z
  /\ parsePrompt demoCodes (lit "en>zh  hello ") (lit "auto") (lit "en")
     = Prompt.mk (lit "en") (lit "zh") (lit "hello").
Proof.
  assert (Hle : (indexOf SPACE (lit "en>zh  hello ") <= 15)%Z)
    by (vm_compute; discriminate).
  split; [exact Hle|].
  pose proof (@prefix_grammar_at_first_space demoCodes (lit "en>zh  hello ")
                (lit "auto") (lit "en") Hle) as G.
  cbv [grammarRule] in G.
  change (cutAtSpace (lit "en>zh  hello ")) with (lit "en>zh", lit "hello") in G.
  cbv beta iota in G. destruct G as [G _]. apply G.
  apply formA.
  - reflexivity.
  - split; [split; [discriminate | repeat constructor] | simpl; auto].
  - split; [split; [discriminate | repeat constructor] | simpl; auto].
Defined.

(** C2 as stated, cutting at the first whitespace character of any kind,
    fails on a prefix delimited by a tab: the code looks for U+0020 only,
    finds no delimiter and, the whole prompt being of no form, returns it
    as text. *)
Lemma prefix_cut_at_whitespace_counterexample :
  cutAtWhiteSpace (lit "en>zh" ++ [9%N] ++ lit "hello") = (lit "en>zh", lit "hello")
  /\ parsePrompt demoCodes (lit "en>zh" ++ [9%N] ++ lit "hello") (lit "auto") (lit "en")
     = Prompt.mk (lit "auto") (lit "en") (lit "en>zh" ++ [9%N] ++ lit "hello")
  /\ ~ grammarRule cutAtWhiteSpace demoCodes (lit "en>zh" ++ [9%N] ++ lit "hello")
         (lit "auto") (lit "en").
Proof.
  split; [reflexivity|]. split; [reflexivity|].
  intros G. cbv [grammarRule] in G.
  change (cutAtWhiteSpace (lit "en>zh" ++ [9%N] ++ lit "hello"))
    with (lit "en>zh", lit "hello") in G.
  cbv beta iota in G. destruct G as [G _].
  assert (F : Form demoCodes (lit "auto") (lit "en") (lit "en>zh")
                (lit "en") (lit "zh")).
  { apply formA.
    - reflexivity.
    - split; [split; [discriminate | repeat constructor] | simpl; auto].
    - split; [split; [discriminate | repeat constructor] | simpl; auto]. }
  apply G in F. vm_compute in F. discriminate.
Qed.

(** ** The query handler *)

(** The examples of the specification. *)

Example parse_source_target :
  parsePrompt demoCodes (lit "en>zh hello") (lit "auto") (lit "en")
  = Prompt.mk (lit "en") (lit "zh") (lit "hello").
Proof. reflexivity. Qed.

Example parse_source_only :
  parsePrompt demoCodes (lit "en> hello") (lit "auto") (lit "zh")
  = Prompt.mk (lit "en") (lit "zh") (lit "hello").
Proof. reflexivity. Qed.

Example parse_target_only :
  parsePrompt demoCodes (lit "zh hello") (lit "auto") (lit "en")
  = Prompt.mk (lit "auto") (lit "zh") (lit "hello")
  /\ parsePrompt demoCodes (lit ">zh hello") (lit "auto") (lit "en")
     = Prompt.mk (lit "auto") (lit "zh") (lit "hello").
Proof. split; reflexivity. Qed.

Example parse_invalid_codes :
  parsePrompt demoCodes (lit "xx>yy hello") (lit "auto") (lit "en")
  = Prompt.mk (lit "auto") (lit "en") (lit "xx>yy hello").
Proof. reflexivity. Qed.

Example parse_plain_text :
  parsePrompt demoCodes (lit "hello") (lit "auto") (lit "en")
  = Prompt.mk (lit "auto") (lit "en") (lit "hello").
Proof. reflexivity. Qed.

Lemma mapThrowing_Forall2 (A B : Type) (f : A -> option B) (l : list A)
    (ys : list B) :
  mapThrowing f l = Some ys <-> Forall2 (fun x y => f x = Some y) l ys.
Proof.
  revert ys; induction l as [|x r IH]; intros ys; simpl.
  - split.
    + intros H; injection H as <-. constructor.
    + intros H; inversion H; reflexivity.
  - split.
    + destruct (f x) as [y|] eqn:Fx; [|discriminate].
      destruct (mapThrowing f r) as [ys'|]; [|discriminate].
      intros H; injection H as <-. constructor; [assumption|].
      apply IH; reflexivity.
    + intros H; inversion H as [|? y ? ys' Fx Hr]; subst.
      rewrite Fx. apply IH in Hr. rewrite Hr. reflexivity.
Qed.

Lemma mapThrowing_total (A B : Type) (f : A -> option B) (l : list A) :
  (forall x, In x l -> f x <> None) -> exists ys, mapThrowing f l = Some ys.
Proof.
  induction l as [|x r IH]; simpl; intros H.
  - eauto.
  - destruct (f x) as [y|] eqn:Fx; [|exfalso; apply (H x); auto].
    destruct IH as [ys E]; [intros; apply H; auto|].
    rewrite E. eauto.
Qed.

Lemma defined_true (A : Type) (v : option A) :
  defined v = true <-> v <> None.
Proof. destruct v; simpl; split; congruence. Qed.

Ltac unfold_query := unfold query.

Section HandlerFacts.

Variable AxiosInstance : Type.
Variable createAxiosInstance : Settings -> AxiosInstance.
Variable languageCodesArr : list jsstring.
Variable languageNamesMap : jsstring -> option Names.
Variable servicesData : jsstring -> option (Service AxiosInstance).
Variable serviceNamesMap : jsstring -> option Names.
Variable assetsPath : jsstring.

Local Abbreviation query :=
  (query createAxiosInstance languageCodesArr languageNamesMap
     servicesData serviceNamesMap assetsPath).

(** *** The fan-out *)

Section Fanout.

Variable settings : Settings.
Variable client : AxiosInstance.
Variable source text : jsstring.

Local Abbreviation task := (translateTask servicesData settings client source text).
Local Abbreviation run := (translatePromises servicesData settings client source text).


(** A task either leaves the shared target alone or sets it to the
    sniffed code. *)
Lemma translateTask_target (name target : jsstring) :
  snd (fst (task name target)) = target
  \/ snd (fst (task name target)) = sniffed text.
Proof.
  unfold translateTask.
  destruct (servicesData name) as [service|]; [|left; reflexivity].
  destruct (languagesMap service source); [|left; reflexivity].
  simpl. destruct (eqb target AUTO || _); [right | left]; reflexivity.
Qed.

(** Once the shared target is the sniffed code it stays so. *)
Lemma translatePromises_sniffed (names : list jsstring) :
  snd (fst (run names (sniffed text))) = sniffed text.
Proof.
  induction names as [|n names IH]; simpl; [reflexivity|].
  pose proof (translateTask_target n (sniffed text)) as H.
  destruct (task n (sniffed text)) as [[t1 g1] c1].
  simpl in H. assert (g1 = sniffed text) as -> by (destruct H; assumption).
  destruct (run names (sniffed text)) as [[t2 g2] c2].
  exact IH.
Qed.


Lemma sniffed_not_auto : sniffed text <> AUTO.
Proof. unfold sniffed. destruct (regExp_test text); discriminate. Qed.

(** A registered service that supports the source and meets the target
    [auto], or a target it does not support, sets the shared target to the
    sniffed code and calls [translate] with its own code for it. *)
Lemma translateTask_resolves (name target : jsstring)
    (service : Service AxiosInstance) :
  servicesData name = Some service ->
  languagesMap service source <> None ->
  target = AUTO \/ languagesMap service target = None ->
  task name target =
  (match translate service text (languagesMap service source)
           (languagesMap service (sniffed text)) client settings with
   | fulfilled result => taskResult result name
   | rejected => taskRejected
   end,
   sniffed text,
   [mkCall name text (languagesMap service source)
      (languagesMap service (sniffed text))]).
Proof.
  intros Hs Hsrc Htgt. unfold translateTask. rewrite Hs.
  destruct (languagesMap service source) as [sc|] eqn:Esrc; [|congruence].
  assert (eqb target AUTO
          || match languagesMap service target with
             | Some _ => false
             | None => true
             end = true) as ->.
  { destruct Htgt as [->|E]; [reflexivity|]. rewrite E. apply orb_true_r. }
  reflexivity.
Qed.

Lemma regExp_test_spec :
  regExp_test text = true <->
  exists c, In c text /\ (19968 <= c <= 40869)%N.
Proof.
  unfold regExp_test. rewrite existsb_exists. split.
  - intros (c & Hin & H). apply andb_true_iff in H as [H1 H2].
    apply N.leb_le in H1, H2. eauto.
  - intros (c & Hin & H1 & H2). exists c. split; [assumption|].
    apply andb_true_iff. split; apply N.leb_le; assumption.
Qed.

(** C5 (amended): when a registered service that supports the source
    meets the target [auto] or a target it does not support, the effective
    target becomes [en] if the text holds a code unit in U+4E00..U+9FA5
    and [zh] otherwise, and the service is called with its code for that
    target. *)
Theorem target_sniffing (name target : jsstring)
    (service : Service AxiosInstance) :
  servicesData name = Some service ->
  languagesMap service source <> None ->
  target = AUTO \/ languagesMap service target = None ->
  let effective := snd (fst (task name target)) in
  ((exists c, In c text /\ (19968 <= c <= 40869)%N) -> effective = lit "en")
  /\ ((forall c, In c text -> ~ (19968 <= c <= 40869)%N) -> effective = lit "zh")
  /\ snd (task name target)
     = [mkCall name text (languagesMap service source)
          (languagesMap service effective)].
Proof.
  intros Hs Hsrc Htgt. rewrite (translateTask_resolves name target service Hs Hsrc Htgt).
  simpl. unfold sniffed. repeat split.
  - intros H. apply regExp_test_spec in H. rewrite H. reflexivity.
  - intros H. destruct (regExp_test text) eqn:E; [|reflexivity].
    apply regExp_test_spec in E as (c & Hin & Hc). destruct (H c Hin Hc).
Qed.


(** C10: a registered service that supports the source but neither the
    target nor the sniffed code is still called, with [undefined] as the
    target service code, and contributes whatever that call settles to;
    nothing checks the sniffed code against the service. *)
Theorem no_support_check_after_sniffing (name target : jsstring)
    (service : Service AxiosInstance) :
  servicesData name = Some service ->
  languagesMap service source <> None ->
  languagesMap service target = None ->
  languagesMap service (sniffed text) = None ->
  task name target =
  (match translate service text (languagesMap service source) None
           client settings with
   | fulfilled result => taskResult result name
   | rejected => taskRejected
   end,
   sniffed text,
   [mkCall name text (languagesMap service source) None]).
Proof.
  intros Hs Hsrc Htgt Hsniff.
  rewrite (translateTask_resolves name target service Hs Hsrc (or_intror Htgt)).
  rewrite Hsniff. reflexivity.
Qed.

(** [Promise.all] rejects exactly when one of the calls made rejects. *)
Lemma promiseAll_rejected (names : list jsstring) (target : jsstring) :
  promiseAll (fst (fst (run names target))) = rejected
  <-> existsb (callRejects servicesData settings client)
        (snd (run names target)) = true.
Proof.
  revert target; induction names as [|n names IH]; intros target; simpl.
  - split; discriminate.
  - destruct (task n target) as [[t g] c] eqn:E.
    specialize (IH g). destruct (run names g) as [[ts g2] cs]. simpl in *.
    rewrite existsb_app, orb_true_iff.
    assert (K : forall (v : option (jsstring * jsstring)),
               match promiseAll ts with
               | fulfilled values => fulfilled (v :: values)
               | rejected => rejected
               end = rejected <-> existsb (callRejects servicesData settings client) cs = true).
    { intros v. destruct (promiseAll ts) as [vs|]; split; intros H;
        try discriminate; try reflexivity.
      - apply IH in H. discriminate.
      - apply IH. reflexivity. }
    unfold translateTask in E.
    destruct (servicesData n) as [service|] eqn:Es.
    + destruct (languagesMap service source) as [sc|].
      * injection E as <- _ <-. simpl. unfold callRejects at 1. simpl.
        rewrite Es.
        destruct (translate service text _ _ client settings); simpl.
        -- rewrite K. split; [auto | intros [H|H]; [discriminate | exact H]].
        -- split; auto.
      * injection E as <- _ <-. simpl. rewrite K.
        split; [auto | intros [H|H]; [discriminate | exact H]].
    + injection E as <- _ <-. simpl. rewrite K.
      split; [auto | intros [H|H]; [discriminate | exact H]].
Qed.

Lemma promiseAll_fulfilled (names : list jsstring) (target : jsstring)
    (values : list (option (jsstring * jsstring))) :
  promiseAll (fst (fst (run names target))) = fulfilled values ->
  Forall2 (contribution servicesData settings source)
    (filter (registered servicesData) names) (notNull values).
Proof.
  revert target values; induction names as [|n names IH]; intros target values;
    simpl.
  - intros H; injection H as <-. constructor.
  - destruct (task n target) as [[t g] c] eqn:E.
    specialize (IH g). destruct (run names g) as [[ts g2] cs]. simpl in *.
    unfold translateTask in E. unfold registered at 1.
    destruct (servicesData n) as [service|] eqn:Es; simpl.
    + destruct (languagesMap service source) as [sc|] eqn:El.
      * injection E as <- _ _.
        destruct (translate service text _ _ client settings); [|discriminate].
        destruct (promiseAll ts) as [vs|]; [|discriminate].
        intros H; injection H as <-. simpl. constructor; [|apply IH; reflexivity].
        split; [reflexivity|]. intros service' Hs'. congruence.
      * injection E as <- _ _.
        destruct (promiseAll ts) as [vs|]; [|discriminate].
        intros H; injection H as <-. simpl. constructor; [|apply IH; reflexivity].
        split; [reflexivity|]. intros; reflexivity.
    + injection E as <- _ _.
      destruct (promiseAll ts) as [vs|]; [|discriminate].
      intros H; injection H as <-. simpl. apply IH; reflexivity.
Qed.

(** The shared target ends as it started or as the sniffed code. *)
Lemma translatePromises_target (names : list jsstring) (target : jsstring) :
  snd (fst (run names target)) = target
  \/ snd (fst (run names target)) = sniffed text.
Proof.
  revert target; induction names as [|n names IH]; intros target; simpl.
  - left; reflexivity.
  - pose proof (translateTask_target n target) as H.
    destruct (task n target) as [[t g] c]. simpl in H.
    specialize (IH g). destruct (run names g) as [[ts g2] cs]. simpl in *.
    destruct H as [->| ->]; [exact IH|].
    right. pose proof (translatePromises_sniffed names) as K.
    destruct IH as [?|?]; assumption.
Qed.

(** When the join is fulfilled and every item can be built, the names,
    the calls and the items line up. *)
Lemma run_shown (finalTarget : jsstring) (names : list jsstring)
    (target : jsstring) (values : list (option (jsstring * jsstring)))
    (items : list ResultItem) :
  promiseAll (fst (fst (run names target))) = fulfilled values ->
  mapThrowing (responseItem languageNamesMap serviceNamesMap assetsPath
                 settings source finalTarget) (notNull values) = Some items ->
  Shown languageNamesMap servicesData serviceNamesMap assetsPath
    settings client source text finalTarget
    names (snd (run names target)) items.
Proof.
  revert target values items; induction names as [|n names IH];
    intros target values items; simpl.
  - intros H; injection H as <-. simpl. intros H; injection H as <-.
    constructor.
  - destruct (task n target) as [[t g] c] eqn:E.
    specialize (IH g). destruct (run names g) as [[ts g2] cs].
    simpl in IH |- *. unfold translateTask in E.
    destruct (servicesData n) as [service|] eqn:Es.
    + destruct (languagesMap service source) as [sc|] eqn:El.
      * injection E as <- _ <-.
        destruct (translate service text (Some sc) _ client settings)
          as [result|] eqn:Et; [|discriminate].
        destruct (promiseAll ts) as [vs|]; [|discriminate].
        intros H; injection H as <-. cbn [notNull mapThrowing].
        destruct (responseItem _ _ _ _ _ _ (result, n)) as [item|] eqn:Ei;
          [|discriminate].
        destruct (mapThrowing _ (notNull vs)) as [its|] eqn:Em; [|discriminate].
        intros H; injection H as <-. simpl.
        eapply shown_result with (service := service) (result := result);
          simpl; try reflexivity; try assumption.
        -- rewrite El. discriminate.
        -- symmetry. exact El.
        -- apply (IH vs its eq_refl Em).
      * injection E as <- _ <-.
        destruct (promiseAll ts) as [vs|]; [|discriminate].
        intros H; injection H as <-. cbn [notNull mapThrowing].
        destruct (responseItem _ _ _ _ _ _ (_, n)) as [item|] eqn:Ei;
          [|discriminate].
        destruct (mapThrowing _ (notNull vs)) as [its|] eqn:Em; [|discriminate].
        intros H; injection H as <-. simpl.
        eapply shown_notice with (service := service); try eassumption.
        apply (IH vs its eq_refl Em).
    + injection E as <- _ <-.
      destruct (promiseAll ts) as [vs|]; [|discriminate].
      intros H; injection H as <-. cbn [notNull]. intros Em.
      apply shown_unregistered; [exact Es|]. apply (IH vs items eq_refl Em).
Qed.

End Fanout.

(** *** The handler's branches *)

Local Abbreviation client axiosInstance settings :=
  (match axiosInstance with
   | Some a => a
   | None => createAxiosInstance settings
   end).

Local Abbreviation parsed prompt settings :=
  (parsePrompt languageCodesArr prompt (sourceLanguageCode settings)
     (targetLanguageCode settings)).

(** The fan-out of a query that reaches it. *)
Local Abbreviation fanout axiosInstance prompt settings names :=
  (translatePromises servicesData settings (client axiosInstance settings)
     (Prompt.sourceLanguageCode (parsed prompt settings))
     (Prompt.text (parsed prompt settings)) names
     (Prompt.targetLanguageCode (parsed prompt settings))).

Lemma query_dispatch (axiosInstance : option AxiosInstance)
    (prompt : jsstring) (settings : Settings) (names : list jsstring) :
  services settings = Some names ->
  dispatches languageCodesArr languageNamesMap prompt settings = true ->
  query axiosInstance prompt settings =
  (let '(tasks, target, calls) := fanout axiosInstance prompt settings names in
   mkOutcome (Some (client axiosInstance settings)) calls
     match promiseAll tasks with
     | rejected => failed
     | fulfilled results =>
         match mapThrowing
                 (responseItem languageNamesMap serviceNamesMap assetsPath
                    settings (Prompt.sourceLanguageCode (parsed prompt settings))
                    target)
                 (notNull results) with
         | None => failed
         | Some responseItems => added responseItems
         end
     end).
Proof.
  unfold_query; unfold dispatches, preconditionsPass, quickSelectCondition,
    parsedTextEmpty.
  intros Hs. rewrite Hs. destruct names as [|n names]; [discriminate|].
  destruct (languageNamesMap (sourceLanguageCode settings)); [|discriminate].
  destruct (languageNamesMap (targetLanguageCode settings)); [|discriminate].
  simpl defined. rewrite andb_true_l.
  intros H. apply andb_true_iff in H as [Hq Ht].
  apply negb_true_iff in Hq, Ht.
  assert (negb (Nat.eqb (List.length match languagePairs settings with
                                     | Some ps => ps
                                     | None => []
                                     end) 0)
          && Nat.eqb (List.length (trim prompt)) 0 = false) as ->.
  { destruct (languagePairs settings); [exact Hq | reflexivity]. }
  rewrite Ht.
  destruct (fanout axiosInstance prompt settings (n :: names)) as [[tasks target] cs].
  destruct (promiseAll tasks); [|reflexivity].
  destruct (mapThrowing _ _); reflexivity.
Qed.

Lemma codesNamed_In (c : jsstring) :
  codesNamed languageCodesArr languageNamesMap = true ->
  In c languageCodesArr -> languageNamesMap c <> None.
Proof.
  unfold codesNamed. rewrite forallb_forall. intros H Hin.
  apply defined_true. auto.
Qed.

Local Abbreviation reply axiosInstance settings items :=
  (mkOutcome (Some (client axiosInstance settings)) [] (added items)).

Lemma query_no_services (axiosInstance : option AxiosInstance)
    (prompt : jsstring) (settings : Settings) :
  services settings = None \/ services settings = Some [] ->
  query axiosInstance prompt settings =
  reply axiosInstance settings
    [warningItem assetsPath
       (messagesMap.noServicesConfigured (interfaceLanguage settings))
       (messagesMap.noServicesConfiguredSubtitle (interfaceLanguage settings))].
Proof. unfold_query. intros [-> | ->]; reflexivity. Qed.

Lemma query_unsupported_source (axiosInstance : option AxiosInstance)
    (prompt : jsstring) (settings : Settings) (n : jsstring)
    (ns : list jsstring) :
  services settings = Some (n :: ns) ->
  languageNamesMap (sourceLanguageCode settings) = None ->
  query axiosInstance prompt settings =
  reply axiosInstance settings
    [warningItem assetsPath
       (messagesMap.unsupportedSourceLanguage (interfaceLanguage settings)
        ++ lit " " ++ sourceLanguageCode settings)
       (messagesMap.unsupportedSourceLanguageSubtitle (interfaceLanguage settings))].
Proof. unfold_query. intros -> ->. reflexivity. Qed.

Lemma query_unsupported_target (axiosInstance : option AxiosInstance)
    (prompt : jsstring) (settings : Settings) (n : jsstring)
    (ns : list jsstring) :
  services settings = Some (n :: ns) ->
  languageNamesMap (sourceLanguageCode settings) <> None ->
  languageNamesMap (targetLanguageCode settings) = None ->
  query axiosInstance prompt settings =
  reply axiosInstance settings
    [warningItem assetsPath
       (messagesMap.unsupportedTargetLanguage (interfaceLanguage settings)
        ++ lit " " ++ targetLanguageCode settings)
       (messagesMap.unsupportedTargetLanguageSubtitle (interfaceLanguage settings))].
Proof.
  unfold_query. intros -> Hs ->.
  destruct (languageNamesMap (sourceLanguageCode settings)); [|congruence].
  reflexivity.
Qed.

(** The quick-select branch: taken on the raw prompt, before any parsing. *)
Lemma query_quick_select (axiosInstance : option AxiosInstance)
    (prompt : jsstring) (settings : Settings) (n : jsstring)
    (ns pairs : list jsstring) (sourceNames targetNames : Names) :
  services settings = Some (n :: ns) ->
  languageNamesMap (sourceLanguageCode settings) = Some sourceNames ->
  languageNamesMap (targetLanguageCode settings) = Some targetNames ->
  languagePairs settings = Some pairs ->
  pairs <> [] ->
  trim prompt = [] ->
  query axiosInstance prompt settings =
  mkOutcome (Some (client axiosInstance settings)) []
    match mapThrowing (pairItem languageNamesMap assetsPath settings)
            (filter (validPair languageCodesArr) pairs) with
    | None => failed
    | Some items =>
        added (defaultItem assetsPath (interfaceLanguage settings)
                 (sourceLanguageCode settings) (targetLanguageCode settings)
                 sourceNames targetNames :: items)
    end.
Proof.
  unfold_query. intros -> -> -> -> Hp ->.
  destruct pairs as [|pair pairs]; [congruence|]. simpl.
  destruct (mapThrowing _ _); reflexivity.
Qed.

(** The branch of an empty parsed text on a prompt that is not blank, or
    without configured pairs. *)
Lemma query_default_selected (axiosInstance : option AxiosInstance)
    (prompt : jsstring) (settings : Settings) :
  preconditionsPass languageNamesMap settings = true ->
  quickSelectCondition prompt settings = false ->
  parsedTextEmpty languageCodesArr prompt settings = true ->
  query axiosInstance prompt settings =
  mkOutcome (Some (client axiosInstance settings)) []
    match languageNamesMap (Prompt.sourceLanguageCode (parsed prompt settings)),
          languageNamesMap (Prompt.targetLanguageCode (parsed prompt settings)) with
    | Some sourceNames, Some targetNames =>
        added [defaultItem assetsPath (interfaceLanguage settings)
                 (Prompt.sourceLanguageCode (parsed prompt settings))
                 (Prompt.targetLanguageCode (parsed prompt settings))
                 sourceNames targetNames]
    | _, _ => failed
    end.
Proof.
  unfold_query; unfold preconditionsPass, quickSelectCondition,
    parsedTextEmpty.
  destruct (services settings) as [[|n ns]|]; try discriminate.
  destruct (languageNamesMap (sourceLanguageCode settings)); [|discriminate].
  destruct (languageNamesMap (targetLanguageCode settings)); [|discriminate].
  intros _ Hq Ht.
  assert (negb (Nat.eqb (List.length match languagePairs settings with
                                     | Some ps => ps
                                     | None => []
                                     end) 0)
          && Nat.eqb (List.length (trim prompt)) 0 = false) as ->.
  { destruct (languagePairs settings); [exact Hq | reflexivity]. }
  rewrite Ht.
  destruct (languageNamesMap (Prompt.sourceLanguageCode _)); [|reflexivity].
  destruct (languageNamesMap (Prompt.targetLanguageCode _)); reflexivity.
Qed.

(** The filter of the pairs keeps those whose first two [>]-separated
    parts, trimmed, are valid codes. *)
Lemma validPair_spec (pair : jsstring) :
  validPair languageCodesArr pair = true <->
  exists source target,
    pairCodes pair = (Some source, Some target)
    /\ In source languageCodesArr /\ In target languageCodesArr.
Proof.
  unfold validPair. destruct (pairCodes pair) as [[a|] [b|]]; simpl.
  - rewrite andb_true_iff.
    rewrite (includes_In languageCodesArr a), (includes_In languageCodesArr b).
    split.
    + intros [Ha Hb]. exists a, b. auto.
    + intros (x & y & E & Hx & Hy). injection E as <- <-. auto.
  - rewrite andb_false_r. split; [discriminate|].
    intros (x & y & E & _). discriminate.
  - split; [discriminate|]. intros (x & y & E & _). discriminate.
  - split; [discriminate|]. intros (x & y & E & _). discriminate.
Qed.

(** With a names table that covers the valid codes, a valid pair has an
    item, and the item's action re-issues the query with that pair. *)
Lemma pairItem_valid (settings : Settings) (pair : jsstring) :
  codesNamed languageCodesArr languageNamesMap = true ->
  validPair languageCodesArr pair = true ->
  exists item,
    pairItem languageNamesMap assetsPath settings pair = Some item
    /\ jsonRPCAction item
       = Some (changeQuery
                 (triggerKeyword settings ++ lit " " ++ pair ++ lit " ") true).
Proof.
  intros Hc Hv. apply validPair_spec in Hv as (a & b & E & Ha & Hb).
  unfold pairItem. rewrite E. simpl tpl.
  pose proof (codesNamed_In a Hc Ha) as Na.
  pose proof (codesNamed_In b Hc Hb) as Nb.
  destruct (languageNamesMap a); [|congruence].
  destruct (languageNamesMap b); [|congruence].
  eexists. split; reflexivity.
Qed.

Lemma preconditionsPass_named (settings : Settings) :
  preconditionsPass languageNamesMap settings = true ->
  languageNamesMap (sourceLanguageCode settings) <> None
  /\ languageNamesMap (targetLanguageCode settings) <> None.
Proof.
  unfold preconditionsPass.
  destruct (services settings) as [[|? ?]|]; try discriminate.
  intros H. apply andb_true_iff in H as [H1 H2].
  split; apply defined_true; assumption.
Qed.

(** With a names table that covers the valid codes, the resolved pair of
    a query that passed the preconditions has names. *)
Lemma resolved_named (prompt : jsstring) (settings : Settings) :
  preconditionsPass languageNamesMap settings = true ->
  codesNamed languageCodesArr languageNamesMap = true ->
  languageNamesMap (Prompt.sourceLanguageCode (parsed prompt settings)) <> None
  /\ languageNamesMap (Prompt.targetLanguageCode (parsed prompt settings)) <> None.
Proof.
  intros Hp Hc. destruct (preconditionsPass_named settings Hp) as [Hs Ht].
  destruct (parsePrompt_codes languageCodesArr prompt
              (sourceLanguageCode settings) (targetLanguageCode settings))
    as [[->|H1] [->|H2]]; auto using codesNamed_In.
Qed.

Lemma Forall2_In_l (A B : Type) (R : A -> B -> Prop) (l : list A) (l' : list B)
    (y : B) :
  Forall2 R l l' -> In y l' -> exists x, In x l /\ R x y.
Proof.
  induction 1 as [|x y' l l' Hxy H IH]; simpl; [tauto|].
  intros [<-|Hin]; [eauto|].
  destruct (IH Hin) as (x' & ? & ?). eauto.
Qed.

Lemma Forall2_chain (A B C : Type) (R : A -> B -> Prop) (S : B -> C -> Prop)
    (T : A -> C -> Prop) (l1 : list A) (l2 : list B) (l3 : list C) :
  (forall x y z, R x y -> S y z -> T x z) ->
  Forall2 R l1 l2 -> Forall2 S l2 l3 -> Forall2 T l1 l3.
Proof.
  intros K H. revert l3; induction H; intros l3 H'; inversion H'; subst;
    constructor; eauto.
Qed.

(** C1 (amended): in a query that reaches the fan-out, with name tables
    that cover the valid codes, [en], [zh] and the registered services:
    if no call of [translate] rejects, every registered service
    contributes one result item, in the configured order; the item of a
    service that supports the source is the one built from what its own
    call of [translate] was fulfilled with, the item of a service that
    lacks the source is the one of the unsupported-source notice, and a
    name missing from the registry has neither call nor item.  If some
    call rejects, the handler adds no item at all. *)
Theorem results_unless_a_call_rejects (axiosInstance : option AxiosInstance)
    (prompt : jsstring) (settings : Settings) (names : list jsstring) :
  services settings = Some names ->
  dispatches languageCodesArr languageNamesMap prompt settings = true ->
  codesNamed languageCodesArr languageNamesMap = true ->
  defined (languageNamesMap (lit "en")) = true ->
  defined (languageNamesMap (lit "zh")) = true ->
  forallb (fun name => implb (registered servicesData name)
                         (defined (serviceNamesMap name))) names = true ->
  let out := query axiosInstance prompt settings in
  let rejecting :=
    existsb (callRejects servicesData settings (client axiosInstance settings))
      (calls out) in
  (rejecting = true -> response out = failed)
  /\ (rejecting = false ->
      exists items,
        response out = added items
        /\ Forall2 (contributes servicesData assetsPath settings
                      (Prompt.sourceLanguageCode (parsed prompt settings)))
             (filter (registered servicesData) names) items
        /\ Shown languageNamesMap servicesData serviceNamesMap assetsPath
             settings (client axiosInstance settings)
             (Prompt.sourceLanguageCode (parsed prompt settings))
             (Prompt.text (parsed prompt settings))
             (snd (fst (fanout axiosInstance prompt settings names)))
             names (calls out) items).
Proof.
  intros Hs Hd Hc Hen Hzh Hsn out rejecting. subst out rejecting.
  pose proof (fun ft => run_shown settings (client axiosInstance settings)
                (Prompt.sourceLanguageCode (parsed prompt settings))
                (Prompt.text (parsed prompt settings)) ft names
                (Prompt.targetLanguageCode (parsed prompt settings))) as Hshown.
  rewrite (@query_dispatch axiosInstance prompt settings names Hs Hd).
  pose proof (promiseAll_rejected settings (client axiosInstance settings)
                (Prompt.sourceLanguageCode (parsed prompt settings))
                (Prompt.text (parsed prompt settings)) names
                (Prompt.targetLanguageCode (parsed prompt settings))) as Hrej.
  pose proof (promiseAll_fulfilled settings (client axiosInstance settings)
                (Prompt.sourceLanguageCode (parsed prompt settings))
                (Prompt.text (parsed prompt settings)) names
                (Prompt.targetLanguageCode (parsed prompt settings))) as Hful.
  pose proof (translatePromises_target settings (client axiosInstance settings)
                (Prompt.sourceLanguageCode (parsed prompt settings))
                (Prompt.text (parsed prompt settings)) names
                (Prompt.targetLanguageCode (parsed prompt settings))) as Htgt.
  destruct (fanout axiosInstance prompt settings names) as [[tasks target] cs].
  simpl in *. split.
  - intros H. apply Hrej in H. rewrite H. reflexivity.
  - intros H.
    destruct (promiseAll tasks) as [values|] eqn:E;
      [|rewrite (proj1 Hrej eq_refl) in H; discriminate].
    specialize (Hful values eq_refl).
    assert (Hp : preconditionsPass languageNamesMap settings = true).
    { unfold dispatches in Hd. apply andb_true_iff in Hd as [Hd _].
      apply andb_true_iff in Hd as [Hd _]. exact Hd. }
    destruct (resolved_named prompt settings Hp Hc) as [Nsrc Ntgt].
    assert (Ntarget : languageNamesMap target <> None).
    { destruct Htgt as [->| ->]; [exact Ntgt|].
      unfold sniffed. destruct (regExp_test _); apply defined_true; assumption. }
    destruct (@mapThrowing_total _ _
                (responseItem languageNamesMap serviceNamesMap assetsPath settings
                   (Prompt.sourceLanguageCode (parsed prompt settings)) target)
                (notNull values)) as [items Ei].
    { intros [result name] Hin.
      destruct (Forall2_In_l _ _ _ _ _ _ Hful Hin) as (name' & Hin' & Hname & _).
      simpl in Hname. subst name'.
      apply filter_In in Hin' as [Hin' Hreg].
      rewrite forallb_forall in Hsn. specialize (Hsn _ Hin').
      rewrite Hreg in Hsn. simpl in Hsn. apply defined_true in Hsn.
      unfold responseItem.
      destruct (languageNamesMap (Prompt.sourceLanguageCode _)); [|congruence].
      destruct (languageNamesMap target); [|congruence].
      destruct (serviceNamesMap name); [discriminate | congruence]. }
    rewrite Ei. exists items. split; [reflexivity|].
    split; [|exact (Hshown target values items eq_refl Ei)].
    apply mapThrowing_Forall2 in Ei.
    refine (Forall2_chain _ _ _ _ _ _ _ _ _ _ Hful Ei).
    intros name [result name'] item [Hname Hnotice] Hitem.
    simpl in Hname. subst name'. unfold responseItem in Hitem.
    destruct (languageNamesMap (Prompt.sourceLanguageCode _)); [|discriminate].
    destruct (languageNamesMap target); [|discriminate].
    destruct (serviceNamesMap name); [|discriminate].
    injection Hitem as <-. split; [reflexivity|]. exact Hnotice.
Qed.

Lemma quick_select_items (settings : Settings) (pairs : list jsstring) :
  codesNamed languageCodesArr languageNamesMap = true ->
  exists items,
    mapThrowing (pairItem languageNamesMap assetsPath settings)
      (filter (validPair languageCodesArr) pairs) = Some items
    /\ map jsonRPCAction items
       = map (fun pair =>
                Some (changeQuery
                        (triggerKeyword settings ++ lit " " ++ pair ++ lit " ")
                        true))
           (filter (validPair languageCodesArr) pairs).
Proof.
  intros Hc. induction pairs as [|pair pairs IH]; simpl.
  - exists []. split; reflexivity.
  - destruct IH as (items & E & Ha).
    destruct (validPair languageCodesArr pair) eqn:Hv; [|eauto].
    destruct (pairItem_valid settings pair Hc Hv) as (item & Ei & Hi).
    simpl. rewrite Ei, E. exists (item :: items). simpl.
    rewrite Hi, Ha. split; reflexivity.
Qed.

Lemma preconditionsPass_inv (settings : Settings) :
  preconditionsPass languageNamesMap settings = true ->
  exists n ns sourceNames targetNames,
    services settings = Some (n :: ns)
    /\ languageNamesMap (sourceLanguageCode settings) = Some sourceNames
    /\ languageNamesMap (targetLanguageCode settings) = Some targetNames.
Proof.
  unfold preconditionsPass.
  destruct (services settings) as [[|n ns]|]; try discriminate.
  destruct (languageNamesMap (sourceLanguageCode settings)) as [sn|];
    [|discriminate].
  destruct (languageNamesMap (targetLanguageCode settings)) as [tn|];
    [|discriminate].
  intros _. exists n, ns, sn, tn. auto.
Qed.

(** C8: on a blank prompt with configured pairs, the list starts with the
    item of the current pair, which is the settings' pair and the pair the
    parser resolves the prompt to, whatever the configured pairs; then
    come the items of exactly the configured pairs that pass the validity
    filter, in the configured order, each with the action that re-issues
    the query with its pair. *)
Theorem quick_select_list (axiosInstance : option AxiosInstance)
    (prompt : jsstring) (settings : Settings) (pairs : list jsstring) :
  preconditionsPass languageNamesMap settings = true ->
  codesNamed languageCodesArr languageNamesMap = true ->
  languagePairs settings = Some pairs ->
  pairs <> [] ->
  trim prompt = [] ->
  exists sourceNames targetNames items,
    languageNamesMap (sourceLanguageCode settings) = Some sourceNames
    /\ languageNamesMap (targetLanguageCode settings) = Some targetNames
    /\ parsed prompt settings
       = Prompt.mk (sourceLanguageCode settings) (targetLanguageCode settings)
           prompt
    /\ response (query axiosInstance prompt settings)
       = added (defaultItem assetsPath (interfaceLanguage settings)
                  (sourceLanguageCode settings) (targetLanguageCode settings)
                  sourceNames targetNames :: items)
    /\ Forall2 (fun pair item =>
                  pairItem languageNamesMap assetsPath settings pair = Some item)
         (filter (validPair languageCodesArr) pairs) items
    /\ map jsonRPCAction items
       = map (fun pair =>
                Some (changeQuery
                        (triggerKeyword settings ++ lit " " ++ pair ++ lit " ")
                        true))
           (filter (validPair languageCodesArr) pairs)
    /\ (forall pair,
          In pair (filter (validPair languageCodesArr) pairs) <->
          In pair pairs
          /\ exists source target,
               pairCodes pair = (Some source, Some target)
               /\ In source languageCodesArr /\ In target languageCodesArr).
Proof.
  intros Hp Hc Hl Hne Hb.
  destruct (preconditionsPass_inv settings Hp) as (n & ns & sn & tn & Hs & Hsn & Htn).
  destruct (quick_select_items settings pairs Hc) as (items & Ei & Ha).
  exists sn, tn, items. repeat split; try assumption.
  - apply parsePrompt_blank. exact Hb.
  - rewrite (query_quick_select axiosInstance prompt settings n ns pairs sn tn
               Hs Hsn Htn Hl Hne Hb).
    rewrite Ei. reflexivity.
  - apply mapThrowing_Forall2. exact Ei.
  - apply filter_In in H. apply H.
  - apply filter_In in H as [_ H]. apply validPair_spec. exact H.
  - intros [Hin Hv]. apply filter_In. split; [exact Hin|].
    apply validPair_spec. exact Hv.
Qed.

(** C3 (amended): in a query that passes the preconditions, the
    quick-select list is produced when pairs are configured and the raw
    prompt is blank; a prompt that is not blank but whose parsed text is
    empty, such as a bare prefix, yields the single item of the resolved
    pair whether or not pairs are configured.  Neither case calls a
    service. *)
Theorem quick_select_on_blank_prompt (axiosInstance : option AxiosInstance)
    (prompt : jsstring) (settings : Settings) :
  preconditionsPass languageNamesMap settings = true ->
  codesNamed languageCodesArr languageNamesMap = true ->
  (forall pairs,
      languagePairs settings = Some pairs -> pairs <> [] -> trim prompt = [] ->
      exists sourceNames targetNames items,
        languageNamesMap (sourceLanguageCode settings) = Some sourceNames
        /\ languageNamesMap (targetLanguageCode settings) = Some targetNames
        /\ mapThrowing (pairItem languageNamesMap assetsPath settings)
             (filter (validPair languageCodesArr) pairs) = Some items
        /\ query axiosInstance prompt settings
           = reply axiosInstance settings
               (defaultItem assetsPath (interfaceLanguage settings)
                  (sourceLanguageCode settings) (targetLanguageCode settings)
                  sourceNames targetNames :: items))
  /\ (trim prompt <> [] ->
      parsedTextEmpty languageCodesArr prompt settings = true ->
      exists sourceNames targetNames,
        languageNamesMap (Prompt.sourceLanguageCode (parsed prompt settings))
        = Some sourceNames
        /\ languageNamesMap (Prompt.targetLanguageCode (parsed prompt settings))
           = Some targetNames
        /\ query axiosInstance prompt settings
           = reply axiosInstance settings
               [defaultItem assetsPath (interfaceLanguage settings)
                  (Prompt.sourceLanguageCode (parsed prompt settings))
                  (Prompt.targetLanguageCode (parsed prompt settings))
                  sourceNames targetNames]).
Proof.
  intros Hp Hc. split.
  - intros pairs Hl Hne Hb.
    destruct (preconditionsPass_inv settings Hp)
      as (n & ns & sn & tn & Hs & Hsn & Htn).
    destruct (quick_select_items settings pairs Hc) as (items & Ei & _).
    exists sn, tn, items. repeat split; try assumption.
    rewrite (query_quick_select axiosInstance prompt settings n ns pairs sn tn
               Hs Hsn Htn Hl Hne Hb).
    rewrite Ei. reflexivity.
  - intros Hnb Ht.
    assert (Hq : quickSelectCondition prompt settings = false).
    { unfold quickSelectCondition.
      destruct (languagePairs settings); [|reflexivity].
      destruct (trim prompt); [congruence|]. apply andb_false_r. }
    rewrite (query_default_selected axiosInstance prompt settings Hp Hq Ht).
    destruct (resolved_named prompt settings Hp Hc) as [Ns Nt].
    destruct (languageNamesMap (Prompt.sourceLanguageCode _)) as [sn|];
      [|congruence].
    destruct (languageNamesMap (Prompt.targetLanguageCode _)) as [tn|];
      [|congruence].
    exists sn, tn. auto.
Qed.

(** C9: the three preconditions are checked in this order, each ending
    the query with one warning item and no call of a service: no services
    configured; then the settings' source code without an entry in the
    names table; then the settings' target code without one. *)
Theorem preconditions_short_circuit (axiosInstance : option AxiosInstance)
    (prompt : jsstring) (settings : Settings) :
  (services settings = None \/ services settings = Some [] ->
   query axiosInstance prompt settings
   = reply axiosInstance settings
       [warningItem assetsPath
          (messagesMap.noServicesConfigured (interfaceLanguage settings))
          (messagesMap.noServicesConfiguredSubtitle (interfaceLanguage settings))])
  /\ (forall n ns,
        services settings = Some (n :: ns) ->
        languageNamesMap (sourceLanguageCode settings) = None ->
        query axiosInstance prompt settings
        = reply axiosInstance settings
            [warningItem assetsPath
               (messagesMap.unsupportedSourceLanguage (interfaceLanguage settings)
                ++ lit " " ++ sourceLanguageCode settings)
               (messagesMap.unsupportedSourceLanguageSubtitle
                  (interfaceLanguage settings))])
  /\ (forall n ns,
        services settings = Some (n :: ns) ->
        languageNamesMap (sourceLanguageCode settings) <> None ->
        languageNamesMap (targetLanguageCode settings) = None ->
        query axiosInstance prompt settings
        = reply axiosInstance settings
            [warningItem assetsPath
               (messagesMap.unsupportedTargetLanguage (interfaceLanguage settings)
                ++ lit " " ++ targetLanguageCode settings)
               (messagesMap.unsupportedTargetLanguageSubtitle
                  (interfaceLanguage settings))]).
Proof.
  split; [apply query_no_services|].
  split; intros n ns.
  - apply query_unsupported_source.
  - apply query_unsupported_target.
Qed.

(** C4 (amended): the checks of the source and target codes run before
    the prompt parser and read the settings' default codes: with a service
    configured, every prompt, a prefix naming a valid pair included, ends
    in the one warning item for the default source code when that code is
    missing from the names table, and in the one warning item for the
    default target code when the source code is in the table and the
    target code is missing; in both cases no service is called. *)
Theorem defaults_checked_before_parsing (axiosInstance : option AxiosInstance)
    (prompt : jsstring) (settings : Settings) (n : jsstring)
    (ns : list jsstring) :
  services settings = Some (n :: ns) ->
  languageNamesMap (sourceLanguageCode settings) = None
  \/ languageNamesMap (targetLanguageCode settings) = None ->
  calls (query axiosInstance prompt settings) = []
  /\ (languageNamesMap (sourceLanguageCode settings) = None ->
      response (query axiosInstance prompt settings)
      = added [warningItem assetsPath
                 (messagesMap.unsupportedSourceLanguage (interfaceLanguage settings)
                  ++ lit " " ++ sourceLanguageCode settings)
                 (messagesMap.unsupportedSourceLanguageSubtitle
                    (interfaceLanguage settings))])
  /\ (languageNamesMap (sourceLanguageCode settings) <> None ->
      languageNamesMap (targetLanguageCode settings) = None
      /\ response (query axiosInstance prompt settings)
         = added [warningItem assetsPath
                    (messagesMap.unsupportedTargetLanguage (interfaceLanguage settings)
                     ++ lit " " ++ targetLanguageCode settings)
                    (messagesMap.unsupportedTargetLanguageSubtitle
                       (interfaceLanguage settings))]).
Proof.
  intros Hs H.
  destruct (languageNamesMap (sourceLanguageCode settings)) as [sn|] eqn:Es.
  - destruct H as [H|H]; [discriminate|].
    rewrite (query_unsupported_target axiosInstance prompt settings n ns Hs);
      [|congruence|exact H].
    simpl. split; [reflexivity|]. split; [discriminate|].
    intros _. split; [exact H | reflexivity].
  - rewrite (query_unsupported_source axiosInstance prompt settings n ns Hs Es).
    simpl. split; [reflexivity|]. split; [reflexivity|].
    intros Hn. congruence.
Qed.

End HandlerFacts.

(** ** The statements on the example tables *)

Local Open Scope string_scope.
Local Open Scope list_scope.

Lemma target_sniffing_witness :
  snd (fst (translateTask demoServices (demoSettings "en" "auto" ["echo"] [])
              tt (lit "en") [20320; 22909]%N (lit "echo") AUTO))
  = lit "en".
Proof.
  assert (Hsrc : languagesMap echo (lit "en") <> None) by discriminate.
  apply (target_sniffing unit demoServices (demoSettings "en" "auto" ["echo"] [])
           tt (lit "en") [20320; 22909]%N (lit "echo") AUTO echo
           eq_refl Hsrc (or_introl eq_refl)).
  exists 20320%N. split; [left; reflexivity | lia].
Defined.

(** C5 as stated fails on U+9FA6, a character of the CJK Unified
    Ideographs block outside the range the code tests: with the target
    [auto] the service is called for [zh], not for [en]. *)
Lemma cjk_block_counterexample :
  existsb cjkUnifiedIdeograph [40870%N] = true
  /\ targetLanguageCode (demoSettings "en" "auto" ["echo"] []) = AUTO
  /\ snd (fst (translateTask demoServices (demoSettings "en" "auto" ["echo"] [])
                 tt (lit "en") [40870%N] (lit "echo") AUTO))
     = lit "zh"
  /\ calls (demoQuery [40870%N] (demoSettings "en" "auto" ["echo"] []))
     = [mkCall (lit "echo") [40870%N] (Some (lit "EN")) (Some (lit "ZH"))].
Proof. repeat split. Qed.


Lemma no_support_check_after_sniffing_witness :
  translateTask demoServices (demoSettings "en" "ja" ["enonly"] [])
    tt (lit "en") (lit "hello") (lit "enonly") (lit "ja")
  = (taskResult (lit "hello") (lit "enonly"), lit "zh",
     [mkCall (lit "enonly") (lit "hello") (Some (lit "eng")) None]).
Proof.
  assert (Hsrc : languagesMap enonly (lit "en") <> None) by discriminate.
  exact (no_support_check_after_sniffing unit demoServices
           (demoSettings "en" "ja" ["enonly"] [])
           tt (lit "en") (lit "hello") (lit "enonly") (lit "ja") enonly
           eq_refl Hsrc eq_refl eq_refl).
Defined.

Lemma results_unless_a_call_rejects_witness :
  exists items,
    response (demoQuery (lit "zh>en nihao")
                (demoSettings "auto" "en" ["echo"; "enonly"; "ghost"] []))
    = added items
    /\ Forall2 (contributes demoServices (lit "assets")
                  (demoSettings "auto" "en" ["echo"; "enonly"; "ghost"] [])
                  (lit "zh"))
         [lit "echo"; lit "enonly"] items
    /\ Shown demoNames demoServices demoServiceNames (lit "assets")
         (demoSettings "auto" "en" ["echo"; "enonly"; "ghost"] []) tt
         (lit "zh") (lit "nihao") (lit "en")
         [lit "echo"; lit "enonly"; lit "ghost"]
         (calls (demoQuery (lit "zh>en nihao")
                   (demoSettings "auto" "en" ["echo"; "enonly"; "ghost"] [])))
         items.
Proof.
  destruct (results_unless_a_call_rejects unit (fun _ => tt) demoCodes demoNames
              demoServices demoServiceNames (lit "assets") None
              (lit "zh>en nihao")
              (demoSettings "auto" "en" ["echo"; "enonly"; "ghost"] [])
              [lit "echo"; lit "enonly"; lit "ghost"]
              eq_refl eq_refl eq_refl eq_refl eq_refl eq_refl) as [_ H].
  exact (H eq_refl).
Defined.

(** C1 as stated fails when a call rejects: [echo] answers, [down]
    rejects, and the handler adds no item, not even the one of [echo]. *)
Lemma rejection_suppresses_all_counterexample :
  translate echo (lit "hello") (Some (lit "auto")) (Some (lit "EN")) tt
    (demoSettings "auto" "en" ["echo"; "down"] [])
  = fulfilled (lit "hello")
  /\ calls (demoQuery (lit "hello") (demoSettings "auto" "en" ["echo"; "down"] []))
     = [mkCall (lit "echo") (lit "hello") (Some (lit "auto")) (Some (lit "EN"));
        mkCall (lit "down") (lit "hello") (Some (lit "auto")) (Some (lit "EN"))]
  /\ response (demoQuery (lit "hello")
                 (demoSettings "auto" "en" ["echo"; "down"] []))
     = failed
  /\ forall items,
       response (demoQuery (lit "hello")
                   (demoSettings "auto" "en" ["echo"; "down"] []))
       <> added items.
Proof. repeat split. intros items. discriminate. Qed.

Lemma quick_select_list_witness :
  exists items,
    response (demoQuery (lit " ")
                (demoSettings "auto" "en" ["echo"]
                   ["en>zh"; "xx>en"; "zh > en"; "en"]))
    = added items
    /\ map jsonRPCAction items
       = [None;
          Some (changeQuery (lit "tr en>zh ") true);
          Some (changeQuery (lit "tr zh > en ") true)].
Proof.
  assert (Hne : map lit ["en>zh"; "xx>en"; "zh > en"; "en"] <> [])
    by discriminate.
  destruct (quick_select_list unit (fun _ => tt) demoCodes demoNames
              demoServices demoServiceNames (lit "assets") None (lit " ")
              (demoSettings "auto" "en" ["echo"]
                 ["en>zh"; "xx>en"; "zh > en"; "en"])
              (map lit ["en>zh"; "xx>en"; "zh > en"; "en"])
              eq_refl eq_refl eq_refl Hne eq_refl)
    as (sn & tn & items & _ & _ & _ & Hr & _ & Ha & _).
  eexists. split; [exact Hr|]. simpl. rewrite Ha. reflexivity.
Defined.

Lemma quick_select_on_blank_prompt_witness :
  (exists items,
      demoQuery [] (demoSettings "auto" "en" ["echo"] ["en>zh"])
      = mkOutcome (Some tt) [] (added items)
      /\ List.length items = 2)
  /\ demoQuery (lit "en>zh") (demoSettings "auto" "en" ["echo"] ["en>zh"])
     = mkOutcome (Some tt) []
         (added [defaultItem (lit "assets") en (lit "en") (lit "zh")
                   (names "English" "Yingyu") (names "Chinese" "Zhongwen")]).
Proof.
  assert (Hne : map lit ["en>zh"] <> []) by discriminate.
  assert (Hnb : trim (lit "en>zh") <> []) by discriminate.
  destruct (quick_select_on_blank_prompt unit (fun _ => tt) demoCodes demoNames
              demoServices demoServiceNames (lit "assets") None []
              (demoSettings "auto" "en" ["echo"] ["en>zh"]) eq_refl eq_refl)
    as [H1 _].
  destruct (quick_select_on_blank_prompt unit (fun _ => tt) demoCodes demoNames
              demoServices demoServiceNames (lit "assets") None (lit "en>zh")
              (demoSettings "auto" "en" ["echo"] ["en>zh"]) eq_refl eq_refl)
    as [_ H2].
  split.
  - destruct (H1 (map lit ["en>zh"]) eq_refl Hne eq_refl)
      as (sn & tn & items & _ & _ & Hi & Hq).
    eexists. split; [exact Hq|].
    injection Hi as <-. reflexivity.
  - destruct (H2 Hnb eq_refl) as (sn & tn & Hs & Ht & Hq).
    injection Hs as <-. injection Ht as <-. exact Hq.
Defined.

(** C3 as stated fails on a bare prefix: pairs are configured and the
    parsed text is empty, yet the prompt itself is not blank, so the
    handler answers with the one item of the resolved pair and the
    configured pairs are not listed. *)
Lemma bare_prefix_counterexample :
  languagePairs (demoSettings "auto" "en" ["echo"] ["en>zh"; "zh>en"])
  = Some [lit "en>zh"; lit "zh>en"]
  /\ Prompt.text (parsePrompt demoCodes (lit "en>zh") (lit "auto") (lit "en")) = []
  /\ response (demoQuery (lit "en>zh")
                 (demoSettings "auto" "en" ["echo"] ["en>zh"; "zh>en"]))
     = added [defaultItem (lit "assets") en (lit "en") (lit "zh")
                (names "English" "Yingyu") (names "Chinese" "Zhongwen")]
  /\ (exists items,
        mapThrowing (pairItem demoNames (lit "assets")
                       (demoSettings "auto" "en" ["echo"] ["en>zh"; "zh>en"]))
          (filter (validPair demoCodes) [lit "en>zh"; lit "zh>en"])
        = Some items
        /\ List.length items = 2
        /\ forall first,
             response (demoQuery (lit "en>zh")
                         (demoSettings "auto" "en" ["echo"] ["en>zh"; "zh>en"]))
             <> added (first :: items)).
Proof.
  repeat split. eexists. split; [reflexivity|]. split; [reflexivity|].
  intros first. discriminate.
Qed.

Lemma preconditions_short_circuit_witness :
  demoQuery (lit "hello") (demoSettings "xx" "yy" [] [])
  = mkOutcome (Some tt) []
      (added [warningItem (lit "assets") (lit "No services configured")
                (lit "Please check your configuration.")])
  /\ demoQuery (lit "hello") (demoSettings "xx" "yy" ["echo"] [])
     = mkOutcome (Some tt) []
         (added [warningItem (lit "assets") (lit "Unsupported source language xx")
                   (lit "Please check your configuration.")])
  /\ demoQuery (lit "hello") (demoSettings "en" "yy" ["echo"] [])
     = mkOutcome (Some tt) []
         (added [warningItem (lit "assets") (lit "Unsupported target language yy")
                   (lit "Please check your configuration.")]).
Proof.
  assert (Hsrc : demoNames (lit "en") <> None) by discriminate.
  split; [|split].
  - exact (proj1 (preconditions_short_circuit unit (fun _ => tt) demoCodes
                    demoNames demoServices demoServiceNames (lit "assets") None
                    (lit "hello") (demoSettings "xx" "yy" [] []))
             (or_intror eq_refl)).
  - exact (proj1 (proj2 (preconditions_short_circuit unit (fun _ => tt) demoCodes
                           demoNames demoServices demoServiceNames (lit "assets")
                           None (lit "hello") (demoSettings "xx" "yy" ["echo"] [])))
             (lit "echo") [] eq_refl eq_refl).
  - exact (proj2 (proj2 (preconditions_short_circuit unit (fun _ => tt) demoCodes
                           demoNames demoServices demoServiceNames (lit "assets")
                           None (lit "hello") (demoSettings "en" "yy" ["echo"] [])))
             (lit "echo") [] eq_refl Hsrc eq_refl).
Defined.

Lemma defaults_checked_before_parsing_witness :
  (calls (demoQuery (lit "en>zh hello") (demoSettings "xx" "yy" ["echo"] [])) = []
   /\ response (demoQuery (lit "en>zh hello")
                  (demoSettings "xx" "yy" ["echo"] []))
      = added [warningItem (lit "assets") (lit "Unsupported source language xx")
                 (lit "Please check your configuration.")])
  /\ (calls (demoQuery (lit "en>zh hello") (demoSettings "en" "yy" ["echo"] []))
      = []
      /\ response (demoQuery (lit "en>zh hello")
                     (demoSettings "en" "yy" ["echo"] []))
         = added [warningItem (lit "assets") (lit "Unsupported target language yy")
                    (lit "Please check your configuration.")]).
Proof.
  assert (Hen : demoNames (lit "en") <> None) by discriminate.
  destruct (defaults_checked_before_parsing unit (fun _ => tt) demoCodes
              demoNames demoServices demoServiceNames (lit "assets") None
              (lit "en>zh hello") (demoSettings "xx" "yy" ["echo"] [])
              (lit "echo") [] eq_refl (or_introl eq_refl)) as (C1 & S1 & _).
  destruct (defaults_checked_before_parsing unit (fun _ => tt) demoCodes
              demoNames demoServices demoServiceNames (lit "assets") None
              (lit "en>zh hello") (demoSettings "en" "yy" ["echo"] [])
              (lit "echo") [] eq_refl (or_intror eq_refl)) as (C2 & _ & T2).
  split; [split; [exact C1 | exact (S1 eq_refl)]|].
  split; [exact C2 | exact (proj2 (T2 Hen))].
Defined.

(** C4 as stated fails when the settings' source code is not in the
    names table: the prefix names the valid pair [en>zh], both in the
    table, and still the handler stops at the warning for the default
    source and calls no service. *)
Lemma prefix_does_not_override_checks_counterexample :
  parsePrompt demoCodes (lit "en>zh hello") (lit "xx") (lit "en")
  = Prompt.mk (lit "en") (lit "zh") (lit "hello")
  /\ defined (demoNames (lit "en")) = true
  /\ defined (demoNames (lit "zh")) = true
  /\ demoNames (lit "xx") = None
  /\ demoQuery (lit "en>zh hello") (demoSettings "xx" "en" ["echo"] [])
     = mkOutcome (Some tt) []
         (added [warningItem (lit "assets") (lit "Unsupported source language xx")
                   (lit "Please check your configuration.")]).
Proof. repeat split. Qed.

(** ** Further properties of the string primitives *)

Lemma trimStart_whitespace (w : jsstring) :
  forallb isWhiteSpace w = true -> trimStart w = [].
Proof.
  induction w as [|c w IH]; simpl; [reflexivity|].
  intros H. apply andb_true_iff in H as [Hc Hw]. rewrite Hc. auto.
Qed.

Lemma trimStart_app_whitespace (w x : jsstring) :
  forallb isWhiteSpace w = true -> trimStart (w ++ x) = trimStart x.
Proof.
  induction w as [|c w IH]; simpl; [reflexivity|].
  intros H. apply andb_true_iff in H as [Hc Hw]. rewrite Hc. auto.
Qed.


Lemma trimStart_clean (u : jsstring) :
  isWhiteSpace (hd 0%N u) = false -> trimStart u = u.
Proof. destruct u as [|c u]; simpl; [reflexivity|]. intros ->. reflexivity. Qed.


Lemma hd_rev (u : jsstring) (d : N) : hd d (rev u) = last u d.
Proof.
  induction u as [|x u _] using rev_ind; [reflexivity|].
  rewrite rev_app_distr, last_last. reflexivity.
Qed.

Lemma last_append (u v : jsstring) (d : N) :
  v <> [] -> last (u ++ v) d = last v d.
Proof.
  intros Hv. induction u as [|x u IH]; [reflexivity|].
  simpl. destruct (u ++ v) eqn:E; [|exact IH].
  apply app_eq_nil in E as [_ E]. congruence.
Qed.

Lemma forallb_rev (f : N -> bool) (w : jsstring) :
  forallb f w = true -> forallb f (rev w) = true.
Proof.
  rewrite !forallb_forall. intros H x Hx. apply H. apply in_rev. exact Hx.
Qed.

(** [trim] strips whitespace at both ends and nothing else. *)
Lemma trim_strip (w1 u w2 : jsstring) :
  forallb isWhiteSpace w1 = true ->
  forallb isWhiteSpace w2 = true ->
  isWhiteSpace (hd 0%N u) = false ->
  isWhiteSpace (last u 0%N) = false ->
  trim (w1 ++ u ++ w2) = u.
Proof.
  intros H1 H2 Hh Hl. unfold trim, trimEnd.
  rewrite (trimStart_app_whitespace w1 (u ++ w2) H1).
  destruct u as [|c u].
  - simpl app. rewrite (trimStart_whitespace w2 H2). reflexivity.
  - assert (E : trimStart ((c :: u) ++ w2) = (c :: u) ++ w2).
    { apply trimStart_clean. exact Hh. }
    rewrite E, rev_app_distr.
    rewrite (trimStart_app_whitespace (rev w2) (rev (c :: u)) (forallb_rev _ _ H2)).
    rewrite trimStart_clean by (rewrite hd_rev; exact Hl).
    apply rev_involutive.
Qed.



Lemma isCode_clean (c : jsstring) :
  isCode c ->
  forallb (fun x => negb (isWhiteSpace x)) c = true
  /\ ~ In SPACE c /\ ~ In GT c
  /\ isWhiteSpace (hd 0%N c) = false /\ isWhiteSpace (last c 0%N) = false.
Proof.
  intros Hc. pose proof Hc as [Hne Hall]. rewrite Forall_forall in Hall.
  assert (K : forall x, In x c -> isWhiteSpace x = false).
  { intros x Hx. destruct (isWhiteSpace x) eqn:E; [|reflexivity].
    destruct (whitespace_not_prefix_char x E) as [E' _].
    rewrite (Hall x Hx) in E'. discriminate. }
  split; [|split; [|split; [|split]]].
  - apply forallb_forall. intros x Hx. rewrite (K x Hx). reflexivity.
  - intros Hin. specialize (K _ Hin). discriminate.
  - apply isCode_no_GT. exact Hc.
  - destruct c as [|x c]; [congruence|]. apply K. left; reflexivity.
  - apply K. destruct c as [|x c]; [congruence|].
    apply (@exists_last _ (x :: c)) in Hne as (u & y & ->).
    rewrite last_last. apply in_or_app; right; left; reflexivity.
Qed.

Lemma indexOf_app (c : N) (u v : jsstring) :
  ~ In c u -> indexOf c (u ++ c :: v) = Z.of_nat (List.length u).
Proof.
  induction u as [|x u IH]; simpl; intros H.
  - rewrite N.eqb_refl. reflexivity.
  - destruct (N.eqb_spec x c) as [->|_]; [exfalso; auto|].
    rewrite IH by auto.
    destruct (Z.eqb_spec (Z.of_nat (List.length u)) (-1)); lia.
Qed.

Lemma indexOf_absent (c : N) (u : jsstring) :
  ~ In c u -> indexOf c u = (-1)%Z.
Proof.
  induction u as [|x u IH]; simpl; intros H; [reflexivity|].
  destruct (N.eqb_spec x c) as [->|_]; [exfalso; auto|].
  rewrite IH by auto. reflexivity.
Qed.

(** The cut of a prompt whose first space follows [u]. *)
Lemma cutAtSpace_app (u v : jsstring) :
  ~ In SPACE u -> cutAtSpace (u ++ SPACE :: v) = (u, trim v).
Proof.
  intros H. unfold cutAtSpace, cutAt. rewrite (indexOf_app SPACE u v H).
  destruct (Z.eqb_spec (Z.of_nat (List.length u)) (-1)) as [E|_]; [lia|].
  unfold substring, substringFrom.
  replace (Z.to_nat (Z.of_nat (List.length u) + 1)) with (S (List.length u)) by lia.
  rewrite Nat2Z.id. simpl Z.to_nat. rewrite Nat.sub_0_r. simpl skipn at 1.
  rewrite firstn_app, Nat.sub_diag, firstn_all. simpl firstn. rewrite app_nil_r.
  replace (u ++ SPACE :: v) with ((u ++ [SPACE]) ++ v)
    by (rewrite <- app_assoc; reflexivity).
  rewrite skipn_app.
  replace (S (List.length u)) with (List.length (u ++ [SPACE]))
    by (rewrite length_app; simpl; lia).
  rewrite skipn_all, Nat.sub_diag. reflexivity.
Qed.

Lemma split_no_separator (sep : N) (s : jsstring) :
  ~ In sep s -> split sep s = [s].
Proof.
  induction s as [|c s IH]; simpl; intros H; [reflexivity|].
  destruct (N.eqb_spec c sep) as [->|_]; [exfalso; auto|].
  rewrite IH by auto. reflexivity.
Qed.

Lemma split_app (sep : N) (u v : jsstring) :
  ~ In sep u -> split sep (u ++ sep :: v) = u :: split sep v.
Proof.
  induction u as [|c u IH]; simpl; intros H.
  - rewrite N.eqb_refl. reflexivity.
  - destruct (N.eqb_spec c sep) as [->|_]; [exfalso; auto|].
    rewrite IH by auto. reflexivity.
Qed.

(** ** Further properties of the prompt parser *)

(** The three expressions match disjoint sets of prefixes. *)
Lemma match_exclusive (prefix : jsstring) :
  (match1 prefix <> None -> match2 prefix = None /\ match3 prefix = None)
  /\ (match2 prefix <> None -> match3 prefix = None).
Proof.
  split.
  - intros H1. split.
    + destruct (match2 prefix) as [a|] eqn:M2; [|reflexivity].
      apply match2_Some in M2 as (E & Ca).
      rewrite (match1_not_form_BC prefix a Ca) in H1; tauto.
    + destruct (match3 prefix) as [b|] eqn:M3; [|reflexivity].
      apply match3_Some in M3 as (E & Cb).
      rewrite (match1_not_form_BC prefix b Cb) in H1; tauto.
  - intros H2. destruct (match3 prefix) as [b|] eqn:M3; [|reflexivity].
    apply match3_Some in M3 as (E & Cb).
    rewrite (match2_not_form_C prefix b Cb) in H2; tauto.
Qed.

(** Every parse is the default or comes from one of the three forms. *)
Lemma parsePrompt_cases (codes : list jsstring) (p s t : jsstring) :
  parsePrompt codes p s t = Prompt.mk s t p
  \/ ((indexOf SPACE p <= 15)%Z
      /\ exists a b,
           Form codes s t (fst (cutAtSpace p)) a b
           /\ parsePrompt codes p s t = Prompt.mk a b (snd (cutAtSpace p))).
Proof.
  destruct (Z.ltb_spec 15 (indexOf SPACE p)) as [Hlt|Hle].
  - left. unfold parsePrompt. cbv zeta.
    rewrite (proj2 (Z.ltb_lt _ _) Hlt). reflexivity.
  - destruct (cutAtSpace p) as [prefix rest] eqn:Hcut. simpl fst; simpl snd.
    rewrite (parsePrompt_cut codes p s t prefix rest Hle Hcut).
    destruct (match_exclusive prefix) as [X1 X2].
    destruct (match1 prefix) as [[a b]|] eqn:M1.
    + destruct X1 as [-> ->]; [discriminate|].
      apply match1_Some in M1 as (E & Ca & Cb).
      destruct (includes codes (Some a) && includes codes (Some b)) eqn:I;
        [|left; reflexivity].
      apply andb_true_iff in I as [Ia Ib]. apply includes_In in Ia, Ib.
      right. split; [exact Hle|]. exists a, b. split; [|reflexivity].
      apply formA; [exact E | split; assumption | split; assumption].
    + destruct (match2 prefix) as [a|] eqn:M2.
      * rewrite X2 by discriminate.
        apply match2_Some in M2 as (E & Ca).
        destruct (includes codes (Some a)) eqn:Ia; [|left; reflexivity].
        apply includes_In in Ia.
        right. split; [exact Hle|]. exists a, t. split; [|reflexivity].
        apply formB; [exact E | split; assumption].
      * destruct (match3 prefix) as [b|] eqn:M3; [|left; reflexivity].
        apply match3_Some in M3 as (E & Cb).
        destruct (includes codes (Some b)) eqn:Ib; [|left; reflexivity].
        apply includes_In in Ib.
        right. split; [exact Hle|]. exists s, b. split; [|reflexivity].
        apply formC; [exact E | split; assumption].
Qed.

(** X3: a parse that is not the default comes from a first word that is
    delimited by a space at index 15 at most, or by the end of the prompt,
    that is not empty, that holds only characters of [[a-z_]] and [>], and
    that has one of the three forms with valid codes; the text is then the
    trimmed remainder. *)
Theorem parse_default_or_form (codes : list jsstring) (p s t : jsstring) :
  parsePrompt codes p s t = Prompt.mk s t p
  \/ ((indexOf SPACE p <= 15)%Z
      /\ fst (cutAtSpace p) <> []
      /\ (forall c, In c (fst (cutAtSpace p)) -> isCodeChar c = true \/ c = GT)
      /\ exists a b,
           Form codes s t (fst (cutAtSpace p)) a b
           /\ parsePrompt codes p s t = Prompt.mk a b (snd (cutAtSpace p))).
Proof.
  destruct (parsePrompt_cases codes p s t) as [H|(Hle & a & b & F & E)];
    [left; exact H|].
  right. split; [exact Hle|]. split; [|split].
  - destruct (Form_nonempty _ _ _ _ _ _ F) as (c & Hin & _).
    intros Hnil. rewrite Hnil in Hin. destruct Hin.
  - intros c Hin. exact (Form_chars _ _ _ _ _ _ c F Hin).
  - exists a, b. auto.
Qed.

(** X1: the codes a parse resolves to are the old ones or valid ones, so
    valid old codes give valid resolved codes. *)
Theorem parse_codes_stay_valid (codes : list jsstring) (p s t : jsstring) :
  In s codes -> In t codes ->
  In (Prompt.sourceLanguageCode (parsePrompt codes p s t)) codes
  /\ In (Prompt.targetLanguageCode (parsePrompt codes p s t)) codes.
Proof.
  intros Hs Ht.
  destruct (parsePrompt_codes codes p s t) as [[->|H1] [->|H2]]; auto.
Qed.

Lemma parse_codes_stay_valid_witness :
  In (Prompt.sourceLanguageCode
        (parsePrompt demoCodes (lit "zh> hello") (lit "auto") (lit "en")))
     demoCodes
  /\ In (Prompt.targetLanguageCode
           (parsePrompt demoCodes (lit "zh> hello") (lit "auto") (lit "en")))
        demoCodes.
Proof.
  apply parse_codes_stay_valid.
  - left; reflexivity.
  - right; left; reflexivity.
Defined.


Lemma validCode_clean_pair (codes : list jsstring) (a b : jsstring) :
  validCode codes a -> validCode codes b ->
  ~ In SPACE (a ++ GT :: b) /\ ~ In GT a /\ ~ In GT b.
Proof.
  intros [Ca _] [Cb _].
  destruct (isCode_clean a Ca) as (_ & Sa & Ga & _).
  destruct (isCode_clean b Cb) as (_ & Sb & Gb & _).
  repeat split; try assumption.
  intros Hin. apply in_app_or in Hin as [H|[H|H]]; auto. discriminate.
Qed.

Lemma listed_pair_parse (codes : list jsstring) (a b s t : jsstring) :
  validCode codes a -> validCode codes b ->
  (List.length (a ++ GT :: b) <= 15)%nat ->
  validPair codes (a ++ GT :: b) = true
  /\ parsePrompt codes ((a ++ GT :: b) ++ [SPACE]) s t = Prompt.mk a b [].
Proof.
  intros Va Vb Hlen.
  destruct (validCode_clean_pair codes a b Va Vb) as (Hsp & Ga & Gb).
  pose proof Va as [Ca Ia]. pose proof Vb as [Cb Ib].
  destruct (isCode_clean a Ca) as (_ & _ & _ & Ha1 & Ha2).
  destruct (isCode_clean b Cb) as (_ & _ & _ & Hb1 & Hb2).
  split.
  - unfold validPair, pairCodes.
    rewrite (split_app GT a b Ga), (split_no_separator GT b Gb). simpl.
    pose proof (trim_strip [] a [] eq_refl eq_refl Ha1 Ha2) as Ta.
    pose proof (trim_strip [] b [] eq_refl eq_refl Hb1 Hb2) as Tb.
    simpl in Ta, Tb. rewrite app_nil_r in Ta, Tb. rewrite Ta, Tb.
    apply andb_true_iff. split; apply (includes_In codes); assumption.
  - assert (Hle : (indexOf SPACE ((a ++ GT :: b) ++ [SPACE]) <= 15)%Z).
    { rewrite (indexOf_app SPACE (a ++ GT :: b) [] Hsp). lia. }
    pose proof (cutAtSpace_app (a ++ GT :: b) [] Hsp) as Hcut.
    change (trim []) with (@nil N) in Hcut.
    apply (proj1 (parsePrompt_grammar codes _ s t _ _ Hle Hcut)).
    apply formA; [reflexivity | exact Va | exact Vb].
Qed.

(** X4: a pair [a>b] of valid codes, at most 15 code units long, passes
    the filter of the configured pairs, and the prompt made of the pair
    and a space, which is what the pair's item writes after the trigger
    keyword, parses back to exactly that pair with an empty text. *)
Theorem listed_pair_parses_back (codes : list jsstring) (a b s t : jsstring) :
  validCode codes a -> validCode codes b ->
  (List.length (a ++ GT :: b) <= 15)%nat ->
  validPair codes (a ++ GT :: b) = true
  /\ parsePrompt codes ((a ++ GT :: b) ++ [SPACE]) s t = Prompt.mk a b [].
Proof. apply listed_pair_parse. Qed.

Lemma listed_pair_parses_back_witness :
  validPair demoCodes (lit "zh>en") = true
  /\ parsePrompt demoCodes (lit "zh>en ") (lit "auto") (lit "zh")
     = Prompt.mk (lit "zh") (lit "en") [].
Proof.
  apply (listed_pair_parses_back demoCodes (lit "zh") (lit "en")
           (lit "auto") (lit "zh")).
  - split; [split; [discriminate | repeat constructor] | simpl; auto].
  - split; [split; [discriminate | repeat constructor] | simpl; auto].
  - simpl. lia.
Defined.

(** X5: a pair written with spaces around the separator, [a > b], passes
    the filter of the configured pairs as well; but the prompt made of it
    and a space is cut at its first space, so it parses as the target [a]
    with the text [> b], the old source being kept. *)
Theorem spaced_pair_parses_as_target (codes : list jsstring)
    (a b s t : jsstring) :
  validCode codes a -> validCode codes b ->
  (List.length a <= 15)%nat ->
  validPair codes (a ++ SPACE :: GT :: SPACE :: b) = true
  /\ parsePrompt codes ((a ++ SPACE :: GT :: SPACE :: b) ++ [SPACE]) s t
     = Prompt.mk s a (GT :: SPACE :: b).
Proof.
  intros Va Vb Hlen.
  pose proof Va as [Ca Ia]. pose proof Vb as [Cb Ib].
  destruct (isCode_clean a Ca) as (_ & Sa & Ga & Ha1 & Ha2).
  destruct (isCode_clean b Cb) as (_ & Sb & Gb & Hb1 & Hb2).
  split.
  - unfold validPair, pairCodes.
    change (a ++ SPACE :: GT :: SPACE :: b)
      with (a ++ [SPACE] ++ GT :: SPACE :: b).
    rewrite app_assoc.
    rewrite (split_app GT (a ++ [SPACE]) (SPACE :: b)).
    2: { intros Hin. apply in_app_or in Hin as [H|[H|[]]]; auto. discriminate. }
    rewrite (split_no_separator GT (SPACE :: b)).
    2: { intros [H|H]; auto. discriminate. }
    simpl map.
    pose proof (trim_strip [] a [SPACE] eq_refl eq_refl Ha1 Ha2) as Ta.
    pose proof (trim_strip [SPACE] b [] eq_refl eq_refl Hb1 Hb2) as Tb.
    simpl in Ta, Tb. rewrite app_nil_r in Tb. rewrite Ta, Tb. simpl.
    apply andb_true_iff. split; apply (includes_In codes); assumption.
  - rewrite <- app_assoc. simpl app.
    assert (Hle : (indexOf SPACE (a ++ SPACE :: GT :: SPACE :: b ++ [SPACE])
                   <= 15)%Z).
    { rewrite (indexOf_app SPACE a _ Sa). lia. }
    pose proof (cutAtSpace_app a (GT :: SPACE :: b ++ [SPACE]) Sa) as Hcut.
    assert (Tr : trim (GT :: SPACE :: b ++ [SPACE]) = GT :: SPACE :: b).
    { apply (trim_strip [] (GT :: SPACE :: b) [SPACE] eq_refl eq_refl);
        [reflexivity|].
      destruct b as [|x b]; [destruct Cb; congruence|]. exact Hb2. }
    rewrite Tr in Hcut.
    apply (proj1 (parsePrompt_grammar codes _ s t _ _ Hle Hcut)).
    apply formC; [left; reflexivity | exact Va].
Qed.

Lemma spaced_pair_parses_as_target_witness :
  validPair demoCodes (lit "zh > en") = true
  /\ parsePrompt demoCodes (lit "zh > en ") (lit "auto") (lit "zh")
     = Prompt.mk (lit "auto") (lit "zh") (lit "> en").
Proof.
  apply (spaced_pair_parses_as_target demoCodes (lit "zh") (lit "en")
           (lit "auto") (lit "zh")).
  - split; [split; [discriminate | repeat constructor] | simpl; auto].
  - split; [split; [discriminate | repeat constructor] | simpl; auto].
  - simpl. lia.
Defined.

(** X6: a configured pair without the separator [>] is dropped by the
    filter, whatever the valid codes are. *)
Theorem pair_without_separator_dropped (codes : list jsstring)
    (pair : jsstring) :
  ~ In GT pair -> validPair codes pair = false.
Proof.
  intros H. unfold validPair, pairCodes.
  rewrite (split_no_separator GT pair H). simpl. apply andb_false_r.
Qed.

Lemma pair_without_separator_dropped_witness :
  validPair demoCodes (lit "en") = false.
Proof.
  apply pair_without_separator_dropped.
  intros H. vm_compute in H. destruct H as [H|[H|[]]]; discriminate H.
Defined.

(** ** Further properties of the query handler *)

Section HandlerCoverage.

Variable AxiosInstance : Type.
Variable createAxiosInstance : Settings -> AxiosInstance.
Variable languageCodesArr : list jsstring.
Variable languageNamesMap : jsstring -> option Names.
Variable servicesData : jsstring -> option (Service AxiosInstance).
Variable serviceNamesMap : jsstring -> option Names.
Variable assetsPath : jsstring.

Local Abbreviation query :=
  (query createAxiosInstance languageCodesArr languageNamesMap
     servicesData serviceNamesMap assetsPath).

Local Abbreviation client axiosInstance settings :=
  (match axiosInstance with
   | Some a => a
   | None => createAxiosInstance settings
   end).

Local Abbreviation parsed prompt settings :=
  (parsePrompt languageCodesArr prompt (sourceLanguageCode settings)
     (targetLanguageCode settings)).

Local Abbreviation fanout axiosInstance prompt settings names :=
  (translatePromises servicesData settings (client axiosInstance settings)
     (Prompt.sourceLanguageCode (parsed prompt settings))
     (Prompt.text (parsed prompt settings)) names
     (Prompt.targetLanguageCode (parsed prompt settings))).

Section Tasks.

Variable settings : Settings.
Variable client0 : AxiosInstance.
Variable source text : jsstring.

Local Abbreviation task := (translateTask servicesData settings client0 source text).
Local Abbreviation run := (translatePromises servicesData settings client0 source text).

Local Abbreviation settle service name target :=
  (match translate service text (languagesMap service source)
           (languagesMap service target) client0 settings with
   | fulfilled result => taskResult result name
   | rejected => taskRejected
   end).

(** The three ways a task goes. *)
Lemma translateTask_cases (name target : jsstring) :
  (servicesData name = None /\ task name target = (taskNull, target, []))
  \/ (exists service,
        servicesData name = Some service
        /\ languagesMap service source = None
        /\ task name target
           = (taskResult
                (messagesMap.unsupportedSourceLanguage (interfaceLanguage settings))
                name, target, []))
  \/ (exists service target',
        servicesData name = Some service
        /\ languagesMap service source <> None
        /\ ((target' = target /\ target <> AUTO
             /\ languagesMap service target <> None)
            \/ (target' = sniffed text
                /\ (target = AUTO \/ languagesMap service target = None)))
        /\ task name target
           = (settle service name target', target',
              [mkCall name text (languagesMap service source)
                 (languagesMap service target')])).
Proof.
  unfold translateTask.
  destruct (servicesData name) as [service|]; [|left; auto].
  destruct (languagesMap service source) as [sc|] eqn:Es;
    [|right; left; exists service; rewrite Es; auto].
  right; right.
  destruct (eqb target AUTO) eqn:Ea.
  - exists service, (sniffed text). apply eqb_eq in Ea. rewrite Es.
    split; [reflexivity|]. split; [discriminate|].
    split; [right; auto | reflexivity].
  - assert (Hna : target <> AUTO).
    { intros E. apply eqb_eq in E. congruence. }
    destruct (languagesMap service target) as [tc|] eqn:Et; simpl.
    + exists service, target. rewrite Es, Et.
      split; [reflexivity|]. split; [discriminate|].
      split; [left; repeat split; [exact Hna | discriminate] | reflexivity].
    + exists service, (sniffed text). rewrite Es.
      split; [reflexivity|]. split; [discriminate|].
      split; [right; auto | reflexivity].
Qed.

(** The services called are the callable ones, once each, in list order,
    each with the text and with its own code for the source. *)
Lemma run_callees (names : list jsstring) (target : jsstring) :
  map callee (snd (run names target)) = filter (callable servicesData source) names
  /\ Forall (fun c =>
               callText c = text
               /\ exists service,
                    servicesData (callee c) = Some service
                    /\ callSource c = languagesMap service source
                    /\ callSource c <> None)
       (snd (run names target)).
Proof.
  revert target; induction names as [|n names IH]; intros target; simpl.
  - split; [reflexivity | constructor].
  - unfold callable at 1.
    destruct (translateTask_cases n target)
      as [[Hs E]|[(service & Hs & Hl & E)|(service & t' & Hs & Hl & _ & E)]];
      rewrite E, Hs; clear E; try rewrite Hl;
      [specialize (IH target) | specialize (IH target) | specialize (IH t')];
      destruct IH as [IH1 IH2].
    + destruct (run names target) as [[ts g] cs]. simpl in *. auto.
    + destruct (run names target) as [[ts g] cs]. simpl in *. auto.
    + destruct (run names t') as [[ts g] cs]. simpl in *.
      rewrite (proj2 (defined_true _ _) Hl). simpl. rewrite IH1.
      split; [reflexivity|]. constructor; [|exact IH2].
      simpl. split; [reflexivity|]. exists service. auto.
Qed.

(** The target of a call is the service's code for the target the run
    started with, or for the sniffed code, and never for [auto]. *)
Lemma run_call_targets (names : list jsstring) (target : jsstring) :
  Forall (fun c =>
            exists service target',
              servicesData (callee c) = Some service
              /\ callTarget c = languagesMap service target'
              /\ target' <> AUTO
              /\ (target' = target \/ target' = sniffed text))
    (snd (run names target)).
Proof.
  revert target; induction names as [|n names IH]; intros target; simpl.
  - constructor.
  - destruct (translateTask_cases n target)
      as [[Hs E]|[(service & Hs & Hl & E)|(service & t' & Hs & Hl & Ht & E)]];
      rewrite E; clear E;
      [specialize (IH target) | specialize (IH target) | specialize (IH t')].
    + destruct (run names target) as [[ts g] cs]. exact IH.
    + destruct (run names target) as [[ts g] cs]. exact IH.
    + destruct (run names t') as [[ts g] cs]. simpl in *.
      assert (Hcase : t' <> AUTO /\ (t' = target \/ t' = sniffed text)).
      { destruct Ht as [(-> & Hna & _)|(-> & _)]; [auto|].
        split; [apply sniffed_not_auto | auto]. }
      constructor.
      * simpl. exists service, t'. tauto.
      * eapply Forall_impl; [|exact IH].
        intros c (sv & t2 & H1 & H2 & H3 & H4). exists sv, t2.
        repeat split; try assumption.
        destruct Hcase as [_ [->| ->]]; tauto.
Qed.

(** A target other than [auto] that every callable service supports is
    the target of every call, and stays the shared target. *)
Lemma run_target_honoured (names : list jsstring) (target : jsstring) :
  target <> AUTO ->
  (forall name service,
      In name names -> servicesData name = Some service ->
      languagesMap service source <> None ->
      languagesMap service target <> None) ->
  snd (fst (run names target)) = target
  /\ Forall (fun c =>
               exists service,
                 servicesData (callee c) = Some service
                 /\ callTarget c = languagesMap service target
                 /\ callTarget c <> None)
       (snd (run names target)).
Proof.
  intros Hna. induction names as [|n names IH]; intros Hsup; simpl.
  - split; [reflexivity | constructor].
  - destruct IH as [IH1 IH2]; [intros; eapply Hsup; eauto; right; assumption|].
    destruct (translateTask_cases n target)
      as [[Hs E]|[(service & Hs & Hl & E)|(service & t' & Hs & Hl & Ht & E)]];
      rewrite E; clear E.
    + destruct (run names target) as [[ts g] cs]. simpl in *. auto.
    + destruct (run names target) as [[ts g] cs]. simpl in *. auto.
    + pose proof (Hsup n service (or_introl eq_refl) Hs Hl) as Hst.
      assert (t' = target) as ->.
      { destruct Ht as [(-> & _)|(_ & [H|H])]; congruence. }
      destruct (run names target) as [[ts g] cs]. simpl in *.
      split; [exact IH1|]. constructor; [|exact IH2].
      simpl. exists service. auto.
Qed.

Lemma run_unregistered (names : list jsstring) (target : jsstring) :
  (forall name, In name names -> servicesData name = None) ->
  run names target = (map (fun _ => taskNull) names, target, []).
Proof.
  induction names as [|n names IH]; intros H; simpl; [reflexivity|].
  unfold translateTask at 1. rewrite (H n (or_introl eq_refl)).
  rewrite IH by (intros; apply H; right; assumption). reflexivity.
Qed.

(** When the join is fulfilled, every call made was fulfilled, and its
    result is among the joined values under the name of the service
    called. *)
Lemma run_results (names : list jsstring) (target : jsstring)
    (values : list (option (jsstring * jsstring))) :
  promiseAll (fst (fst (run names target))) = fulfilled values ->
  Forall (fun c =>
            exists service result,
              servicesData (callee c) = Some service
              /\ translate service (callText c) (callSource c) (callTarget c)
                   client0 settings = fulfilled result
              /\ In (result, callee c) (notNull values))
    (snd (run names target)).
Proof.
  revert target values; induction names as [|n names IH]; intros target values;
    simpl.
  - constructor.
  - assert (W : forall v vs,
               Forall (fun c =>
                         exists service result,
                           servicesData (callee c) = Some service
                           /\ translate service (callText c) (callSource c)
                                (callTarget c) client0 settings = fulfilled result
                           /\ In (result, callee c) (notNull vs))
                 (snd (run names v)) ->
               forall x,
               Forall (fun c =>
                         exists service result,
                           servicesData (callee c) = Some service
                           /\ translate service (callText c) (callSource c)
                                (callTarget c) client0 settings = fulfilled result
                           /\ In (result, callee c) (notNull (x :: vs)))
                 (snd (run names v))).
    { intros v vs H x. eapply Forall_impl; [|exact H].
      intros c (sv & r & H1 & H2 & H3). exists sv, r.
      repeat split; try assumption. destruct x; simpl; auto. }
    destruct (translateTask_cases n target)
      as [[Hs E]|[(service & Hs & Hl & E)|(service & t' & Hs & Hl & Ht & E)]];
      rewrite E; clear E;
      [specialize (IH target) | specialize (IH target) | specialize (IH t')];
      [specialize (W target) | specialize (W target) | specialize (W t')].
    + destruct (run names target) as [[ts g] cs]. simpl in IH |- *.
      destruct (promiseAll ts) as [vs|]; [|discriminate].
      intros H; injection H as <-. apply (W vs (IH vs eq_refl)).
    + destruct (run names target) as [[ts g] cs]. simpl in IH |- *.
      destruct (promiseAll ts) as [vs|]; [|discriminate].
      intros H; injection H as <-. apply (W vs (IH vs eq_refl)).
    + destruct (run names t') as [[ts g] cs]. simpl in IH |- *.
      destruct (translate service text (languagesMap service source)
                  (languagesMap service t') client0 settings) as [r|] eqn:Et;
        [|discriminate].
      destruct (promiseAll ts) as [vs|]; [|discriminate].
      intros H; injection H as <-. constructor.
      * simpl. exists service, r. repeat split; auto.
      * apply (W vs (IH vs eq_refl)).
Qed.

End Tasks.

(** *** The handler as a whole *)

Lemma dispatches_inv (prompt : jsstring) (settings : Settings) :
  dispatches languageCodesArr languageNamesMap prompt settings = true ->
  preconditionsPass languageNamesMap settings = true
  /\ quickSelectCondition prompt settings = false
  /\ parsedTextEmpty languageCodesArr prompt settings = false.
Proof.
  unfold dispatches. intros H.
  apply andb_true_iff in H as [H H3]. apply andb_true_iff in H as [H1 H2].
  apply negb_true_iff in H2, H3. auto.
Qed.

Lemma dispatches_services (prompt : jsstring) (settings : Settings) :
  dispatches languageCodesArr languageNamesMap prompt settings = true ->
  exists names, services settings = Some names.
Proof.
  intros H. apply dispatches_inv in H as [H _].
  destruct (preconditionsPass_inv _ _ H) as (n & ns & _ & _ & Hs & _).
  eauto.
Qed.

(** The handler's client: the one it was given, or a new one. *)
Lemma query_axios (axiosInstance : option AxiosInstance) (prompt : jsstring)
    (settings : Settings) :
  axios (query axiosInstance prompt settings)
  = Some (client axiosInstance settings).
Proof.
  unfold_query. cbv zeta.
  repeat match goal with
         | |- context [match ?x with _ => _ end] =>
             match x with
             | axiosInstance => fail 1
             | _ => destruct x
             end
         end; reflexivity.
Qed.

Lemma query_calls (axiosInstance : option AxiosInstance) (prompt : jsstring)
    (settings : Settings) (names : list jsstring) :
  services settings = Some names ->
  dispatches languageCodesArr languageNamesMap prompt settings = true ->
  calls (query axiosInstance prompt settings)
  = snd (fanout axiosInstance prompt settings names).
Proof.
  intros Hs Hd. erewrite query_dispatch; [|exact Hs|exact Hd].
  destruct (fanout axiosInstance prompt settings names) as [[ts g] cs].
  reflexivity.
Qed.

Lemma query_calls_idle (axiosInstance : option AxiosInstance)
    (prompt : jsstring) (settings : Settings) :
  dispatches languageCodesArr languageNamesMap prompt settings = false ->
  calls (query axiosInstance prompt settings) = [].
Proof.
  unfold dispatches, preconditionsPass, quickSelectCondition, parsedTextEmpty.
  unfold_query. cbv zeta.
  destruct (services settings) as [[|n ns]|]; try reflexivity.
  destruct (languageNamesMap (sourceLanguageCode settings)); [|reflexivity].
  destruct (languageNamesMap (targetLanguageCode settings)); [|reflexivity].
  simpl defined. rewrite andb_true_l.
  destruct (languagePairs settings) as [pairs|].
  - destruct (negb (Nat.eqb (List.length pairs) 0)
              && Nat.eqb (List.length (trim prompt)) 0).
    + intros _. destruct (mapThrowing _ _); reflexivity.
    + simpl negb. rewrite andb_true_l. intros H. apply negb_false_iff in H.
      rewrite H.
      destruct (languageNamesMap (Prompt.sourceLanguageCode _)); [|reflexivity].
      destruct (languageNamesMap (Prompt.targetLanguageCode _)); reflexivity.
  - simpl negb. simpl andb. intros H. apply negb_false_iff in H. rewrite H.
    destruct (languageNamesMap (Prompt.sourceLanguageCode _)); [|reflexivity].
    destruct (languageNamesMap (Prompt.targetLanguageCode _)); reflexivity.
Qed.

(** The items of a dispatched response, one per joined result. *)
Lemma query_items (axiosInstance : option AxiosInstance) (prompt : jsstring)
    (settings : Settings) (names : list jsstring) (items : list ResultItem) :
  services settings = Some names ->
  dispatches languageCodesArr languageNamesMap prompt settings = true ->
  response (query axiosInstance prompt settings) = added items ->
  exists values,
    promiseAll (fst (fst (fanout axiosInstance prompt settings names)))
    = fulfilled values
    /\ Forall2 (fun value item =>
                  responseItem languageNamesMap serviceNamesMap assetsPath
                    settings
                    (Prompt.sourceLanguageCode (parsed prompt settings))
                    (snd (fst (fanout axiosInstance prompt settings names)))
                    value = Some item)
         (notNull values) items.
Proof.
  intros Hs Hd. erewrite query_dispatch; [|exact Hs|exact Hd].
  destruct (fanout axiosInstance prompt settings names) as [[ts g] cs].
  simpl. destruct (promiseAll ts) as [values|]; [|discriminate].
  destruct (mapThrowing _ (notNull values)) as [its|] eqn:E; [|discriminate].
  intros H; injection H as <-. exists values. split; [reflexivity|].
  apply mapThrowing_Forall2. exact E.
Qed.

(** X7: unless the preconditions pass, the quick-select branch is not
    taken and the parsed text is not blank, the handler calls no service. *)
Theorem no_call_unless_dispatched (axiosInstance : option AxiosInstance)
    (prompt : jsstring) (settings : Settings) :
  dispatches languageCodesArr languageNamesMap prompt settings = false ->
  calls (query axiosInstance prompt settings) = [].
Proof. apply query_calls_idle. Qed.

(** X8: a dispatched query calls exactly the configured services that are
    registered and have a code for the resolved source, once per
    configured entry and in the configured order, each with the parsed
    text and with its own code for the source. *)
Theorem calls_follow_configured_services
    (axiosInstance : option AxiosInstance) (prompt : jsstring)
    (settings : Settings) (names : list jsstring) :
  services settings = Some names ->
  dispatches languageCodesArr languageNamesMap prompt settings = true ->
  map callee (calls (query axiosInstance prompt settings))
  = filter (callable servicesData
              (Prompt.sourceLanguageCode (parsed prompt settings))) names
  /\ Forall (fun c =>
               callText c = Prompt.text (parsed prompt settings)
               /\ exists service,
                    servicesData (callee c) = Some service
                    /\ callSource c
                       = languagesMap service
                           (Prompt.sourceLanguageCode (parsed prompt settings))
                    /\ callSource c <> None)
       (calls (query axiosInstance prompt settings)).
Proof.
  intros Hs Hd. rewrite (query_calls axiosInstance prompt settings names Hs Hd).
  apply run_callees.
Qed.

(** X9: whatever the query, no service is called with a blank text, and
    the target code of a call is never the service's code for [auto]: it
    is the one for the parsed target, which is not [auto] then, or the one
    for the sniffed code. *)
Theorem no_call_with_blank_text_or_auto
    (axiosInstance : option AxiosInstance) (prompt : jsstring)
    (settings : Settings) :
  Forall (fun c =>
            trim (callText c) <> []
            /\ exists service target,
                 servicesData (callee c) = Some service
                 /\ callTarget c = languagesMap service target
                 /\ target <> AUTO
                 /\ (target = Prompt.targetLanguageCode (parsed prompt settings)
                     \/ target = sniffed (Prompt.text (parsed prompt settings))))
    (calls (query axiosInstance prompt settings)).
Proof.
  destruct (dispatches languageCodesArr languageNamesMap prompt settings) eqn:Hd.
  - destruct (dispatches_services prompt settings Hd) as [names Hs].
    rewrite (query_calls axiosInstance prompt settings names Hs Hd).
    destruct (dispatches_inv prompt settings Hd) as (_ & _ & Ht).
    unfold parsedTextEmpty in Ht. apply orb_false_iff in Ht as [_ Ht].
    pose proof (run_callees settings (client axiosInstance settings)
                  (Prompt.sourceLanguageCode (parsed prompt settings))
                  (Prompt.text (parsed prompt settings)) names
                  (Prompt.targetLanguageCode (parsed prompt settings)))
      as [_ H1].
    pose proof (run_call_targets settings (client axiosInstance settings)
                  (Prompt.sourceLanguageCode (parsed prompt settings))
                  (Prompt.text (parsed prompt settings)) names
                  (Prompt.targetLanguageCode (parsed prompt settings))) as H2.
    rewrite Forall_forall in *. intros c Hc. split.
    + destruct (H1 c Hc) as [-> _]. intros E. rewrite E in Ht. discriminate.
    + exact (H2 c Hc).
  - rewrite (query_calls_idle axiosInstance prompt settings Hd). constructor.
Qed.

(** X10: when the parsed target is not [auto] and every configured
    service that is registered and supports the source supports it, every
    call carries the service's code for that target: nothing is sniffed. *)
Theorem supported_target_honoured (axiosInstance : option AxiosInstance)
    (prompt : jsstring) (settings : Settings) (names : list jsstring) :
  services settings = Some names ->
  dispatches languageCodesArr languageNamesMap prompt settings = true ->
  Prompt.targetLanguageCode (parsed prompt settings) <> AUTO ->
  (forall name service,
      In name names -> servicesData name = Some service ->
      languagesMap service (Prompt.sourceLanguageCode (parsed prompt settings))
      <> None ->
      languagesMap service (Prompt.targetLanguageCode (parsed prompt settings))
      <> None) ->
  Forall (fun c =>
            exists service,
              servicesData (callee c) = Some service
              /\ callTarget c
                 = languagesMap service
                     (Prompt.targetLanguageCode (parsed prompt settings))
              /\ callTarget c <> None)
    (calls (query axiosInstance prompt settings)).
Proof.
  intros Hs Hd Hna Hsup.
  rewrite (query_calls axiosInstance prompt settings names Hs Hd).
  apply run_target_honoured; assumption.
Qed.

(** X11: every item of a dispatched response carries the action
    [copy] with its own title as the one parameter, and the [copy] handler
    hands exactly that title to the clipboard. *)
Theorem items_copy_their_title (axiosInstance : option AxiosInstance)
    (prompt : jsstring) (settings : Settings) (items : list ResultItem) :
  dispatches languageCodesArr languageNamesMap prompt settings = true ->
  response (query axiosInstance prompt settings) = added items ->
  Forall (fun item =>
            exists parameters,
              jsonRPCAction item = Some (custom (lit "copy") parameters)
              /\ parameters = [title item]
              /\ copy parameters = Some (title item))
    items.
Proof.
  intros Hd Hr. destruct (dispatches_services prompt settings Hd) as [names Hs].
  destruct (query_items axiosInstance prompt settings names items Hs Hd Hr)
    as (values & _ & H).
  clear Hr.
  induction H as [|[result name] item vs its Hi _ IH]; [constructor|].
  constructor; [|exact IH].
  unfold responseItem in Hi.
  destruct (languageNamesMap (Prompt.sourceLanguageCode _)); [|discriminate].
  destruct (languageNamesMap _); [|discriminate].
  destruct (serviceNamesMap name); [|discriminate].
  injection Hi as <-. exists [result]. repeat split.
Qed.

(** X12: a dispatched query whose configured services are all missing
    from the registry calls nothing and adds an empty list of items; no
    notice is shown. *)
Theorem unregistered_services_give_nothing
    (axiosInstance : option AxiosInstance) (prompt : jsstring)
    (settings : Settings) (names : list jsstring) :
  services settings = Some names ->
  dispatches languageCodesArr languageNamesMap prompt settings = true ->
  (forall name, In name names -> servicesData name = None) ->
  query axiosInstance prompt settings
  = mkOutcome (Some (client axiosInstance settings)) [] (added []).
Proof.
  intros Hs Hd Hn. erewrite query_dispatch; [|exact Hs|exact Hd].
  rewrite (run_unregistered settings (client axiosInstance settings) _ _ names _ Hn).
  assert (E : promiseAll (map (fun _ : jsstring => taskNull) names)
              = fulfilled (map (fun _ => None) names)).
  { clear. induction names as [|n names IH]; simpl; [reflexivity|].
    rewrite IH. reflexivity. }
  rewrite E.
  assert (E' : @notNull (jsstring * jsstring)
                 (map (fun _ : jsstring => None) names) = []).
  { clear. induction names as [|n names IH]; simpl; auto. }
  rewrite E'. reflexivity.
Qed.

(** X13: all the items of a dispatched response are labelled with the
    same pair, the resolved source and the final value of the shared
    target, whatever target each service was called with. *)
Theorem items_labelled_with_final_target
    (axiosInstance : option AxiosInstance) (prompt : jsstring)
    (settings : Settings) (names : list jsstring) (items : list ResultItem) :
  services settings = Some names ->
  dispatches languageCodesArr languageNamesMap prompt settings = true ->
  response (query axiosInstance prompt settings) = added items ->
  items <> [] ->
  exists sourceNames targetNames,
    languageNamesMap (Prompt.sourceLanguageCode (parsed prompt settings))
    = Some sourceNames
    /\ languageNamesMap (snd (fst (fanout axiosInstance prompt settings names)))
       = Some targetNames
    /\ Forall (fun item =>
                 exists name serviceNames,
                   In name names
                   /\ serviceNamesMap name = Some serviceNames
                   /\ icoPath item = serviceIcon assetsPath name
                   /\ subtitle item
                      = tpl (sourceNames (interfaceLanguage settings)) ++ arrow
                        ++ tpl (targetNames (interfaceLanguage settings))
                        ++ lit "  [" ++ tpl (serviceNames (interfaceLanguage settings))
                        ++ lit "]")
         items.
Proof.
  intros Hs Hd Hr Hne.
  destruct (query_items axiosInstance prompt settings names items Hs Hd Hr)
    as (values & Hv & H).
  pose proof (promiseAll_fulfilled AxiosInstance servicesData settings
                (client axiosInstance settings)
                (Prompt.sourceLanguageCode (parsed prompt settings))
                (Prompt.text (parsed prompt settings)) names
                (Prompt.targetLanguageCode (parsed prompt settings)) values Hv)
    as Hc.
  destruct (languageNamesMap (Prompt.sourceLanguageCode (parsed prompt settings)))
    as [sn|] eqn:Es.
  2: { destruct H as [|v item vs its Hi _]; [congruence|].
       unfold responseItem in Hi. destruct v. rewrite Es in Hi. discriminate. }
  destruct (languageNamesMap
              (snd (fst (fanout axiosInstance prompt settings names))))
    as [tn|] eqn:Et.
  2: { destruct H as [|v item vs its Hi _]; [congruence|].
       unfold responseItem in Hi. destruct v. rewrite Es, Et in Hi.
       discriminate. }
  exists sn, tn. split; [reflexivity|]. split; [reflexivity|].
  apply Forall_forall. intros item Hin.
  assert (K : exists v, In v (notNull values)
                        /\ responseItem languageNamesMap serviceNamesMap
                             assetsPath settings
                             (Prompt.sourceLanguageCode (parsed prompt settings))
                             (snd (fst (fanout axiosInstance prompt settings names)))
                             v = Some item).
  { clear - H Hin. induction H as [|v i vs its Hi _ IH]; [destruct Hin|].
    destruct Hin as [<-|Hin]; [exists v; split; [left; reflexivity | exact Hi]|].
    destruct (IH Hin) as (v' & Hv' & E). exists v'. split; [right|]; assumption. }
  destruct K as ([result name] & Hv' & Hi).
  assert (Hname : In name names).
  { assert (G : forall l l', Forall2 (contribution servicesData settings
                    (Prompt.sourceLanguageCode (parsed prompt settings))) l l' ->
                  In (result, name) l' -> In name l).
    { induction 1 as [|x y l l' [Hxy _] _ IH]; simpl; [tauto|].
      intros [->|Hy]; [left; symmetry; exact Hxy | right; auto]. }
    specialize (G _ _ Hc Hv'). apply filter_In in G. apply G. }
  unfold responseItem in Hi. rewrite Es, Et in Hi.
  destruct (serviceNamesMap name) as [svn|] eqn:En; [|discriminate].
  injection Hi as <-. exists name, svn. auto.
Qed.

(** X14: the handler leaves the client it was given in place and creates
    one only when there is none; so over two queries in a row the client
    is the one of the first query, whatever the settings of the second. *)
Theorem client_created_once (axiosInstance : option AxiosInstance)
    (prompt1 prompt2 : jsstring) (settings1 settings2 : Settings) :
  axios (query axiosInstance prompt1 settings1)
  = Some (client axiosInstance settings1)
  /\ axios (query (axios (query axiosInstance prompt1 settings1))
              prompt2 settings2)
     = axios (query axiosInstance prompt1 settings1)
  /\ axios (query (axios (query None prompt1 settings1)) prompt2 settings2)
     = Some (createAxiosInstance settings1).
Proof.
  split; [apply query_axios|]. split; rewrite !query_axios; reflexivity.
Qed.

(** X15: a blank prompt with no configured pairs is answered with the one
    item of the settings' pair, and no service is called. *)
Theorem blank_prompt_without_pairs (axiosInstance : option AxiosInstance)
    (prompt : jsstring) (settings : Settings) :
  preconditionsPass languageNamesMap settings = true ->
  languagePairs settings = None \/ languagePairs settings = Some [] ->
  trim prompt = [] ->
  exists sourceNames targetNames,
    languageNamesMap (sourceLanguageCode settings) = Some sourceNames
    /\ languageNamesMap (targetLanguageCode settings) = Some targetNames
    /\ query axiosInstance prompt settings
       = mkOutcome (Some (client axiosInstance settings)) []
           (added [defaultItem assetsPath (interfaceLanguage settings)
                     (sourceLanguageCode settings) (targetLanguageCode settings)
                     sourceNames targetNames]).
Proof.
  intros Hp Hl Hb.
  destruct (preconditionsPass_inv _ _ Hp) as (n & ns & sn & tn & Hs & Hsn & Htn).
  exists sn, tn. split; [exact Hsn|]. split; [exact Htn|].
  assert (Hq : quickSelectCondition prompt settings = false).
  { unfold quickSelectCondition. destruct Hl as [->| ->]; reflexivity. }
  assert (Ht : parsedTextEmpty languageCodesArr prompt settings = true).
  { unfold parsedTextEmpty. rewrite (parsePrompt_blank _ _ _ _ Hb). simpl.
    rewrite Hb. apply orb_true_r. }
  erewrite query_default_selected; [|exact Hp|exact Hq|exact Ht].
  rewrite (parsePrompt_blank _ _ _ _ Hb). simpl. rewrite Hsn, Htn. reflexivity.
Qed.

Lemma Forall2_In_r (A B : Type) (R : A -> B -> Prop) (l : list A)
    (l' : list B) (x : A) :
  Forall2 R l l' -> In x l -> exists y, In y l' /\ R x y.
Proof.
  induction 1 as [|x' y l l' Hxy H IH]; simpl; [tauto|].
  intros [<-|Hin]; [eauto|].
  destruct (IH Hin) as (y' & ? & ?). eauto.
Qed.

(** X16: in a dispatched response every call made was fulfilled, and what
    it was fulfilled with is the title of an item under the icon of the
    service called: results are not mixed up between services. *)
Theorem results_shown_under_their_service
    (axiosInstance : option AxiosInstance) (prompt : jsstring)
    (settings : Settings) (items : list ResultItem) :
  dispatches languageCodesArr languageNamesMap prompt settings = true ->
  response (query axiosInstance prompt settings) = added items ->
  Forall (fun c =>
            exists service item,
              servicesData (callee c) = Some service
              /\ In item items
              /\ icoPath item = serviceIcon assetsPath (callee c)
              /\ translate service (callText c) (callSource c) (callTarget c)
                   (client axiosInstance settings) settings
                 = fulfilled (title item))
    (calls (query axiosInstance prompt settings)).
Proof.
  intros Hd Hr. destruct (dispatches_services prompt settings Hd) as [names Hs].
  destruct (query_items axiosInstance prompt settings names items Hs Hd Hr)
    as (values & Hv & H).
  rewrite (query_calls axiosInstance prompt settings names Hs Hd).
  eapply Forall_impl; [|exact (run_results _ _ _ _ _ _ _ Hv)].
  intros c (service & result & H1 & H2 & H3).
  destruct (Forall2_In_r _ _ _ _ _ _ H H3) as (item & Hin & Hi).
  exists service, item. split; [exact H1|]. split; [exact Hin|].
  unfold responseItem in Hi.
  destruct (languageNamesMap (Prompt.sourceLanguageCode _)); [|discriminate].
  destruct (languageNamesMap _); [|discriminate].
  destruct (serviceNamesMap (callee c)); [|discriminate].
  injection Hi as <-. split; [reflexivity | exact H2].
Qed.

(** X17: the query a listed pair's item re-issues shows the pair: for a
    pair [a>b] of valid codes with names, at most 15 code units long, the
    prompt made of the pair and a space is answered with the one item of
    that pair, and no service is called. *)
Theorem selected_pair_is_shown (axiosInstance : option AxiosInstance)
    (settings : Settings) (a b : jsstring) (aNames bNames : Names) :
  preconditionsPass languageNamesMap settings = true ->
  validCode languageCodesArr a -> validCode languageCodesArr b ->
  (List.length (a ++ GT :: b) <= 15)%nat ->
  languageNamesMap a = Some aNames ->
  languageNamesMap b = Some bNames ->
  validPair languageCodesArr (a ++ GT :: b) = true
  /\ query axiosInstance ((a ++ GT :: b) ++ [SPACE]) settings
     = mkOutcome (Some (client axiosInstance settings)) []
         (added [defaultItem assetsPath (interfaceLanguage settings) a b
                   aNames bNames]).
Proof.
  intros Hp Va Vb Hlen Ha Hb.
  destruct (listed_pair_parse languageCodesArr a b
              (sourceLanguageCode settings) (targetLanguageCode settings)
              Va Vb Hlen) as [Hv Hparse].
  split; [exact Hv|].
  assert (Hq : quickSelectCondition ((a ++ GT :: b) ++ [SPACE]) settings = false).
  { unfold quickSelectCondition. destruct (languagePairs settings); [|reflexivity].
    destruct Va as [Ca _], Vb as [Cb _].
    destruct (isCode_clean a Ca) as (_ & _ & _ & Ha1 & _).
    destruct (isCode_clean b Cb) as (_ & _ & _ & _ & Hb2).
    assert (T : trim ((a ++ GT :: b) ++ [SPACE]) = a ++ GT :: b).
    { apply (trim_strip [] (a ++ GT :: b) [SPACE] eq_refl eq_refl).
      - destruct a as [|x a]; [destruct Ca; congruence | exact Ha1].
      - destruct b as [|y b]; [destruct Cb; congruence|].
        change (a ++ GT :: y :: b) with (a ++ [GT] ++ (y :: b)).
        rewrite app_assoc, last_append by discriminate. exact Hb2. }
    rewrite T. destruct a; simpl; apply andb_false_r. }
  assert (Ht : parsedTextEmpty languageCodesArr ((a ++ GT :: b) ++ [SPACE])
                 settings = true).
  { unfold parsedTextEmpty. rewrite Hparse. reflexivity. }
  erewrite query_default_selected; [|exact Hp|exact Hq|exact Ht].
  rewrite Hparse. simpl. rewrite Ha, Hb. reflexivity.
Qed.

(** X18: when pairs are configured but none passes the filter, a blank
    prompt is answered with the one item of the settings' pair; the names
    of no other code are read. *)
Theorem quick_select_without_valid_pair (axiosInstance : option AxiosInstance)
    (prompt : jsstring) (settings : Settings) (pairs : list jsstring) :
  preconditionsPass languageNamesMap settings = true ->
  languagePairs settings = Some pairs ->
  pairs <> [] ->
  forallb (fun pair => negb (validPair languageCodesArr pair)) pairs = true ->
  trim prompt = [] ->
  exists sourceNames targetNames,
    languageNamesMap (sourceLanguageCode settings) = Some sourceNames
    /\ languageNamesMap (targetLanguageCode settings) = Some targetNames
    /\ query axiosInstance prompt settings
       = mkOutcome (Some (client axiosInstance settings)) []
           (added [defaultItem assetsPath (interfaceLanguage settings)
                     (sourceLanguageCode settings) (targetLanguageCode settings)
                     sourceNames targetNames]).
Proof.
  intros Hp Hl Hne Hnone Hb.
  destruct (preconditionsPass_inv _ _ Hp) as (n & ns & sn & tn & Hs & Hsn & Htn).
  exists sn, tn. split; [exact Hsn|]. split; [exact Htn|].
  erewrite query_quick_select;
    [|exact Hs|exact Hsn|exact Htn|exact Hl|exact Hne|exact Hb].
  assert (E : filter (validPair languageCodesArr) pairs = []).
  { clear - Hnone. induction pairs as [|pair pairs IH]; simpl in *; [reflexivity|].
    apply andb_true_iff in Hnone as [H1 H2]. apply negb_true_iff in H1.
    rewrite H1. auto. }
  rewrite E. reflexivity.
Qed.

End HandlerCoverage.

(** ** The further statements on the example tables *)

Lemma no_call_unless_dispatched_witness :
  calls (demoQuery (lit "en>zh") (demoSettings "auto" "en" ["echo"] [])) = [].
Proof.
  exact (no_call_unless_dispatched unit (fun _ => tt) demoCodes demoNames
           demoServices demoServiceNames (lit "assets") None (lit "en>zh")
           (demoSettings "auto" "en" ["echo"] []) eq_refl).
Defined.

Lemma calls_follow_configured_services_witness :
  map callee
    (calls (demoQuery (lit "zh>en nihao")
              (demoSettings "auto" "en" ["echo"; "enonly"; "ghost"; "echo"] [])))
  = [lit "echo"; lit "echo"].
Proof.
  exact (proj1 (calls_follow_configured_services unit (fun _ => tt) demoCodes
                  demoNames demoServices demoServiceNames (lit "assets") None
                  (lit "zh>en nihao")
                  (demoSettings "auto" "en" ["echo"; "enonly"; "ghost"; "echo"] [])
                  (map lit ["echo"; "enonly"; "ghost"; "echo"])
                  eq_refl eq_refl)).
Defined.

Lemma supported_target_honoured_witness :
  Forall (fun c =>
            exists service,
              demoServices (callee c) = Some service
              /\ callTarget c = languagesMap service (lit "zh")
              /\ callTarget c <> None)
    (calls (demoQuery (lit "en>zh hello") (demoSettings "auto" "en" ["echo"] []))).
Proof.
  assert (Hna : lit "zh" <> AUTO) by discriminate.
  refine (supported_target_honoured unit (fun _ => tt) demoCodes demoNames
            demoServices demoServiceNames (lit "assets") None (lit "en>zh hello")
            (demoSettings "auto" "en" ["echo"] []) (map lit ["echo"])
            eq_refl eq_refl Hna _).
  intros name service [<-|[]] Hs _. injection Hs as <-. discriminate.
Defined.

Lemma items_copy_their_title_witness :
  exists items,
    response (demoQuery (lit "hello")
                (demoSettings "auto" "en" ["echo"; "enonly"] []))
    = added items
    /\ Forall (fun item =>
                 exists parameters,
                   jsonRPCAction item = Some (custom (lit "copy") parameters)
                   /\ parameters = [title item]
                   /\ copy parameters = Some (title item))
         items.
Proof.
  eexists. split; [reflexivity|].
  exact (items_copy_their_title unit (fun _ => tt) demoCodes demoNames
           demoServices demoServiceNames (lit "assets") None (lit "hello")
           (demoSettings "auto" "en" ["echo"; "enonly"] []) _ eq_refl eq_refl).
Defined.

Lemma unregistered_services_give_nothing_witness :
  demoQuery (lit "hello") (demoSettings "auto" "en" ["ghost"; "phantom"] [])
  = mkOutcome (Some tt) [] (added []).
Proof.
  refine (unregistered_services_give_nothing unit (fun _ => tt) demoCodes
            demoNames demoServices demoServiceNames (lit "assets") None
            (lit "hello") (demoSettings "auto" "en" ["ghost"; "phantom"] [])
            (map lit ["ghost"; "phantom"]) eq_refl eq_refl _).
  intros name [<-|[<-|[]]]; reflexivity.
Defined.

(** [echo] is called for [zh]; [enonly], which lacks [zh], sniffs the
    Chinese text and sets the shared target to [en]; both items are then
    labelled with the pair of English and English. *)
Lemma items_labelled_with_final_target_witness :
  map callTarget
    (calls (demoQuery (lit "en>zh " ++ [20320; 22909]%N)
              (demoSettings "auto" "en" ["echo"; "enonly"] [])))
  = [Some (lit "ZH"); Some (lit "eng")]
  /\ exists items,
       response (demoQuery (lit "en>zh " ++ [20320; 22909]%N)
                   (demoSettings "auto" "en" ["echo"; "enonly"] []))
       = added items
       /\ exists sourceNames targetNames,
            demoNames (lit "en") = Some sourceNames
            /\ demoNames (lit "en") = Some targetNames
            /\ Forall (fun item =>
                         exists name serviceNames,
                           In name [lit "echo"; lit "enonly"]
                           /\ demoServiceNames name = Some serviceNames
                           /\ icoPath item = serviceIcon (lit "assets") name
                           /\ subtitle item
                              = tpl (sourceNames en) ++ arrow
                                ++ tpl (targetNames en)
                                ++ lit "  [" ++ tpl (serviceNames en) ++ lit "]")
                 items.
Proof.
  split; [reflexivity|].
  eexists. split; [reflexivity|].
  refine (items_labelled_with_final_target unit (fun _ => tt) demoCodes
            demoNames demoServices demoServiceNames (lit "assets") None
            (lit "en>zh " ++ [20320; 22909]%N)
            (demoSettings "auto" "en" ["echo"; "enonly"] [])
            (map lit ["echo"; "enonly"]) _ eq_refl eq_refl eq_refl _).
  discriminate.
Defined.

Lemma blank_prompt_without_pairs_witness :
  exists sourceNames targetNames,
    demoNames (lit "auto") = Some sourceNames
    /\ demoNames (lit "en") = Some targetNames
    /\ demoQuery (lit "  ") (demoSettings "auto" "en" ["echo"] [])
       = mkOutcome (Some tt) []
           (added [defaultItem (lit "assets") en (lit "auto") (lit "en")
                     sourceNames targetNames]).
Proof.
  exact (blank_prompt_without_pairs unit (fun _ => tt) demoCodes demoNames
           demoServices demoServiceNames (lit "assets") None (lit "  ")
           (demoSettings "auto" "en" ["echo"] []) eq_refl
           (or_intror eq_refl) eq_refl).
Defined.

Lemma results_shown_under_their_service_witness :
  exists items,
    response (demoQuery (lit "hello")
                (demoSettings "auto" "en" ["enonly"; "echo"] []))
    = added items
    /\ Forall (fun c =>
                 exists service item,
                   demoServices (callee c) = Some service
                   /\ In item items
                   /\ icoPath item = serviceIcon (lit "assets") (callee c)
                   /\ translate service (callText c) (callSource c)
                        (callTarget c) tt
                        (demoSettings "auto" "en" ["enonly"; "echo"] [])
                      = fulfilled (title item))
         (calls (demoQuery (lit "hello")
                   (demoSettings "auto" "en" ["enonly"; "echo"] []))).
Proof.
  eexists. split; [reflexivity|].
  exact (results_shown_under_their_service unit (fun _ => tt) demoCodes
           demoNames demoServices demoServiceNames (lit "assets") None
           (lit "hello") (demoSettings "auto" "en" ["enonly"; "echo"] [])
           _ eq_refl eq_refl).
Defined.

Lemma selected_pair_is_shown_witness :
  validPair demoCodes (lit "zh>en") = true
  /\ demoQuery (lit "zh>en ") (demoSettings "auto" "zh" ["echo"] ["zh>en"])
     = mkOutcome (Some tt) []
         (added [defaultItem (lit "assets") en (lit "zh") (lit "en")
                   (names "Chinese" "Zhongwen") (names "English" "Yingyu")]).
Proof.
  apply (selected_pair_is_shown unit (fun _ => tt) demoCodes demoNames
           demoServices demoServiceNames (lit "assets") None
           (demoSettings "auto" "zh" ["echo"] ["zh>en"]) (lit "zh") (lit "en")).
  - reflexivity.
  - split; [split; [discriminate | repeat constructor] | simpl; auto].
  - split; [split; [discriminate | repeat constructor] | simpl; auto].
  - simpl. lia.
  - reflexivity.
  - reflexivity.
Defined.

Lemma quick_select_without_valid_pair_witness :
  exists sourceNames targetNames,
    demoNames (lit "auto") = Some sourceNames
    /\ demoNames (lit "en") = Some targetNames
    /\ demoQuery [] (demoSettings "auto" "en" ["echo"] ["en"; "xx>zh"])
       = mkOutcome (Some tt) []
           (added [defaultItem (lit "assets") en (lit "auto") (lit "en")
                     sourceNames targetNames]).
Proof.
  assert (Hne : map lit ["en"; "xx>zh"] <> []) by discriminate.
  exact (quick_select_without_valid_pair unit (fun _ => tt) demoCodes demoNames
           demoServices demoServiceNames (lit "assets") None []
           (demoSettings "auto" "en" ["echo"] ["en"; "xx>zh"])
           (map lit ["en"; "xx>zh"]) eq_refl eq_refl Hne eq_refl eq_refl).
Defined.
